(** * Address book: validated fields, birthday scheduling, records, directory

    A shallow embedding of [address_book.py].  Python strings are lists of
    Unicode code points, dates are the (year, month, day) triples of
    [datetime.date] with CPython's proleptic-Gregorian ordinal arithmetic,
    exceptions are an explicit result type, and the mutable [Record] is
    threaded through a small state-and-exception monad. *)

From Stdlib Require Import ZArith List Lia Bool String Ascii.
From stdpp Require Import base decidable countable gmap sets.
Import ListNotations.
Local Open Scope Z_scope.

(** ** Exceptions *)

Inductive exn : Type :=
| ValidationError (msg : string)
| KeyError
| ValueError
| AttributeError
| TypeError
| OverflowError.

Inductive result (A : Type) : Type :=
| Ok (a : A)
| Raise (e : exn).
Arguments Ok {A} a.
Arguments Raise {A} e.

Definition rbind {A B} (r : result A) (k : A -> result B) : result B :=
  match r with
  | Ok a => k a
  | Raise e => Raise e
  end.

Definition is_ok {A} (r : result A) : bool :=
  match r with Ok _ => true | Raise _ => false end.

Definition is_ValidationError {A} (r : result A) : bool :=
  match r with Raise (ValidationError _) => true | _ => false end.

(** ** Python strings *)

Module PyStr.

(** A [str] is a sequence of code points. *)
Definition pystr : Type := list Z.

(** An ASCII literal as a Python string. *)
Definition py (s : string) : pystr :=
  List.map (fun a => Z.of_N (N_of_ascii a)) (list_ascii_of_string s).

Fixpoint in_ranges (rs : list (Z * Z)) (c : Z) : bool :=
  match rs with
  | [] => false
  | (lo, hi) :: rs' => ((lo <=? c) && (c <=? hi)) || in_ranges rs' c
  end.

Fixpoint range_start (rs : list (Z * Z)) (c : Z) : option Z :=
  match rs with
  | [] => None
  | (lo, hi) :: rs' =>
      if (lo <=? c) && (c <=? hi) then Some lo else range_start rs' c
  end.

(** Code points of general category Nd (Unicode 14.0), the characters for
    which [str.isdecimal] holds and which the regular-expression class
    [\d] matches.  Every range starts at a digit zero and is a whole
    number of runs 0..9. *)
Definition decimal_ranges : list (Z * Z) :=
  [ (48, 57); (1632, 1641); (1776, 1785); (1984, 1993); (2406, 2415);
    (2534, 2543); (2662, 2671); (2790, 2799); (2918, 2927); (3046, 3055);
    (3174, 3183); (3302, 3311); (3430, 3439); (3558, 3567); (3664, 3673);
    (3792, 3801); (3872, 3881); (4160, 4169); (4240, 4249); (6112, 6121);
    (6160, 6169); (6470, 6479); (6608, 6617); (6784, 6793); (6800, 6809);
    (6992, 7001); (7088, 7097); (7232, 7241); (7248, 7257);
    (42528, 42537); (43216, 43225); (43264, 43273); (43472, 43481);
    (43504, 43513); (43600, 43609); (44016, 44025); (65296, 65305);
    (66720, 66729); (68912, 68921); (69734, 69743); (69872, 69881);
    (69942, 69951); (70096, 70105); (70384, 70393); (70736, 70745);
    (70864, 70873); (71248, 71257); (71360, 71369); (71472, 71481);
    (71904, 71913); (72016, 72025); (72784, 72793); (73040, 73049);
    (73120, 73129); (92768, 92777); (92864, 92873); (93008, 93017);
    (120782, 120831); (123200, 123209); (123632, 123641);
    (125264, 125273); (130032, 130041) ].

(** Code points with Numeric_Type=Digit that are not decimal: superscripts,
    subscripts, circled and parenthesised digits and the like. *)
Definition other_digit_ranges : list (Z * Z) :=
  [ (178, 179); (185, 185); (4969, 4977); (6618, 6618); (8304, 8304);
    (8308, 8313); (8320, 8329); (9312, 9320); (9332, 9340); (9352, 9360);
    (9450, 9450); (9461, 9469); (9471, 9471); (10102, 10110);
    (10112, 10120); (10122, 10130); (68160, 68163); (69216, 69224);
    (69714, 69722); (127232, 127242) ].

Definition char_isdecimal (c : Z) : bool := in_ranges decimal_ranges c.

(** The character test behind [str.isdigit]. *)
Definition char_isdigit (c : Z) : bool :=
  char_isdecimal c || in_ranges other_digit_ranges c.

(** The ten characters '0'..'9'. *)
Definition char_is_ascii_digit (c : Z) : bool := (48 <=? c) && (c <=? 57).

Definition decimal_value (c : Z) : option Z :=
  match range_start decimal_ranges c with
  | Some lo => Some ((c - lo) mod 10)
  | None => None
  end.

(** [s.isdigit()]: every character is a digit and there is at least one. *)
Definition isdigit (s : pystr) : bool :=
  match s with
  | [] => false
  | _ => forallb char_isdigit s
  end.

(** [len(s)] *)
Definition len (s : pystr) : Z := Z.of_nat (List.length s).

(** [int(s)] on a string of decimal characters, as it is applied to the
    groups of a successful match; [acc] is the value of the digits read. *)
Fixpoint int_from (acc : Z) (s : pystr) : option Z :=
  match s with
  | [] => Some acc
  | c :: s' =>
      match decimal_value c with
      | Some v => int_from (10 * acc + v) s'
      | None => None
      end
  end.

Definition int (s : pystr) : option Z :=
  match s with
  | [] => None
  | _ => int_from 0 s
  end.

(** [str(n).rjust(w, '0')] for [0 <= n], the output of a [%0wd] field. *)
Fixpoint digits_fixed (w : nat) (n : Z) : pystr :=
  match w with
  | O => []
  | S w' => digits_fixed w' (n / 10) ++ [48 + n mod 10]
  end.

Fixpoint ndigits_fuel (fuel : nat) (n : Z) : nat :=
  match fuel with
  | O => 1%nat
  | S f => if n <? 10 then 1%nat else S (ndigits_fuel f (n / 10))
  end.

(** [str(n)] for [0 <= n < 10^5]: no padding. *)
Definition digits_plain (n : Z) : pystr :=
  digits_fixed (ndigits_fuel 4 n) n.

End PyStr.
Export PyStr.

(** ** [datetime.date] *)

Module PyDate.

Record date : Type := mkDate { year : Z; month : Z; day : Z }.

Definition MINYEAR : Z := 1.
Definition MAXYEAR : Z := 9999.
Definition _MAXORDINAL : Z := 3652059.
Definition _DI400Y : Z := 146097.
Definition _DI100Y : Z := 36524.
Definition _DI4Y : Z := 1461.

Definition _is_leap (y : Z) : bool :=
  (y mod 4 =? 0) && (negb (y mod 100 =? 0) || (y mod 400 =? 0)).

Definition _DAYS_IN_MONTH (m : Z) : Z :=
  match m with
  | 1 => 31 | 2 => 28 | 3 => 31 | 4 => 30 | 5 => 31 | 6 => 30
  | 7 => 31 | 8 => 31 | 9 => 30 | 10 => 31 | 11 => 30 | 12 => 31
  | _ => -1
  end.

Definition _DAYS_BEFORE_MONTH (m : Z) : Z :=
  match m with
  | 1 => 0 | 2 => 31 | 3 => 59 | 4 => 90 | 5 => 120 | 6 => 151
  | 7 => 181 | 8 => 212 | 9 => 243 | 10 => 273 | 11 => 304 | 12 => 334
  | _ => -1
  end.

Definition _days_before_year (y : Z) : Z :=
  let y' := y - 1 in y' * 365 + y' / 4 - y' / 100 + y' / 400.

Definition _days_in_month (y m : Z) : Z :=
  if (m =? 2) && _is_leap y then 29 else _DAYS_IN_MONTH m.

Definition _days_before_month (y m : Z) : Z :=
  _DAYS_BEFORE_MONTH m + (if (2 <? m) && _is_leap y then 1 else 0).

Definition _ymd2ord (y m d : Z) : Z :=
  _days_before_year y + _days_before_month y m + d.

Definition _ord2ymd (n : Z) : date :=
  let n := n - 1 in
  let n400 := n / _DI400Y in
  let n := n mod _DI400Y in
  let y := n400 * 400 + 1 in
  let n100 := n / _DI100Y in
  let n := n mod _DI100Y in
  let n4 := n / _DI4Y in
  let n := n mod _DI4Y in
  let n1 := n / 365 in
  let n := n mod 365 in
  let y := y + n100 * 100 + n4 * 4 + n1 in
  if (n1 =? 4) || (n100 =? 4) then mkDate (y - 1) 12 31
  else
    let leapyear := (n1 =? 3) && (negb (n4 =? 24) || (n100 =? 3)) in
    let m := Z.shiftr (n + 50) 5 in
    let preceding :=
      _DAYS_BEFORE_MONTH m + (if (2 <? m) && leapyear then 1 else 0) in
    if n <? preceding then
      let m := m - 1 in
      let preceding :=
        preceding
        - (_DAYS_IN_MONTH m + (if (m =? 2) && leapyear then 1 else 0)) in
      mkDate y m (n - preceding + 1)
    else mkDate y m (n - preceding + 1).

(** [_check_date_fields] as a boolean. *)
Definition valid_ymd (y m d : Z) : bool :=
  (MINYEAR <=? y) && (y <=? MAXYEAR) && (1 <=? m) && (m <=? 12)
  && (1 <=? d) && (d <=? _days_in_month y m).

Definition valid_date (d : date) : bool :=
  valid_ymd (year d) (month d) (day d).

(** [date(y, m, d)] *)
Definition date_new (y m d : Z) : result date :=
  if valid_ymd y m d then Ok (mkDate y m d) else Raise ValueError.

(** [self.replace(year=y)] and [self.replace(year=y, day=d)] *)
Definition replace_year (self : date) (y : Z) : result date :=
  date_new y (month self) (day self).

Definition replace_year_day (self : date) (y d : Z) : result date :=
  date_new y (month self) d.

Definition toordinal (d : date) : Z := _ymd2ord (year d) (month d) (day d).

Definition fromordinal (n : Z) : date := _ord2ymd n.

(** Monday is 0, Sunday is 6. *)
Definition weekday (d : date) : Z := (toordinal d + 6) mod 7.

(** [a < b]: comparison of the (year, month, day) triples. *)
Definition date_ltb (a b : date) : bool :=
  (year a <? year b)
  || ((year a =? year b)
      && ((month a <? month b)
          || ((month a =? month b) && (day a <? day b)))).

Definition date_eqb (a b : date) : bool :=
  (year a =? year b) && (month a =? month b) && (day a =? day b).

(** [self + timedelta(days=k)] *)
Definition add_days (self : date) (k : Z) : result date :=
  let o := toordinal self + k in
  if (0 <? o) && (o <=? _MAXORDINAL) then Ok (fromordinal o)
  else Raise OverflowError.

(** [(a - b).days] *)
Definition sub_days (a b : date) : Z := toordinal a - toordinal b.

End PyDate.
Export PyDate.

Notation "x <~ e ;; k" := (rbind e (fun x => k))
  (at level 100, e at next level, right associativity, only parsing).

(** ** [datetime.strptime(value, "%d.%m.%Y")] and [date.strftime] *)

Module StrpTime.

(** The fragment of regular expressions that [_strptime] generates for the
    format: literal characters, ASCII ranges, [\d], sequence, ordered
    alternation and the three named groups. *)
Inductive group : Type := Gd | Gm | GY.

Inductive re : Type :=
| RChar (c : Z)
| RRange (lo hi : Z)
| RDigit
| RSeq (a b : re)
| RAlt (a b : re)
| RGroup (g : group) (r : re).

Record captures : Type :=
  mkCaptures { cap_d : pystr; cap_m : pystr; cap_Y : pystr }.

Definition no_captures : captures := mkCaptures [] [] [].

Definition set_capture (g : group) (txt : pystr) (c : captures) : captures :=
  match g with
  | Gd => mkCaptures txt (cap_m c) (cap_Y c)
  | Gm => mkCaptures (cap_d c) txt (cap_Y c)
  | GY => mkCaptures (cap_d c) (cap_m c) txt
  end.

Definition one_char (p : Z -> bool) {X}
    (s : pystr) (caps : captures)
    (k : pystr -> captures -> pystr -> option X) : option X :=
  match s with
  | c :: s' => if p c then k [c] caps s' else None
  | [] => None
  end.

(** Backtracking matcher: [k] receives the text matched, the groups and
    the rest of the input; an alternation tries its left branch with the
    whole continuation before its right branch. *)
Fixpoint rmatch {X} (r : re) (s : pystr) (caps : captures)
    (k : pystr -> captures -> pystr -> option X) : option X :=
  match r with
  | RChar c => one_char (Z.eqb c) s caps k
  | RRange lo hi => one_char (fun x => (lo <=? x) && (x <=? hi)) s caps k
  | RDigit => one_char char_isdecimal s caps k
  | RSeq a b =>
      rmatch a s caps (fun m1 caps1 s1 =>
        rmatch b s1 caps1 (fun m2 caps2 s2 => k (m1 ++ m2) caps2 s2))
  | RAlt a b =>
      match rmatch a s caps k with
      | Some x => Some x
      | None => rmatch b s caps k
      end
  | RGroup g a =>
      rmatch a s caps (fun m caps1 s1 => k m (set_capture g m caps1) s1)
  end.

Definition ch (a : ascii) : Z := Z.of_N (N_of_ascii a).

(** [(?P<d>3[0-1]|[1-2]\d|0[1-9]|[1-9]| [1-9])] *)
Definition re_d : re :=
  RGroup Gd
    (RAlt (RSeq (RChar (ch "3")) (RRange (ch "0") (ch "1")))
    (RAlt (RSeq (RRange (ch "1") (ch "2")) RDigit)
    (RAlt (RSeq (RChar (ch "0")) (RRange (ch "1") (ch "9")))
    (RAlt (RRange (ch "1") (ch "9"))
          (RSeq (RChar (ch " ")) (RRange (ch "1") (ch "9"))))))).

(** [(?P<m>1[0-2]|0[1-9]|[1-9])] *)
Definition re_m : re :=
  RGroup Gm
    (RAlt (RSeq (RChar (ch "1")) (RRange (ch "0") (ch "2")))
    (RAlt (RSeq (RChar (ch "0")) (RRange (ch "1") (ch "9")))
          (RRange (ch "1") (ch "9")))).

(** [(?P<Y>\d\d\d\d)] *)
Definition re_Y : re :=
  RGroup GY (RSeq RDigit (RSeq RDigit (RSeq RDigit RDigit))).

(** The pattern compiled from ["%d.%m.%Y"]. *)
Definition format_regex : re :=
  RSeq re_d (RSeq (RChar (ch ".")) (RSeq re_m (RSeq (RChar (ch ".")) re_Y))).

(** [format_regex.match(s)]: the groups and the unmatched rest. *)
Definition re_match (s : pystr) : option (captures * pystr) :=
  rmatch format_regex s no_captures (fun _ caps rest => Some (caps, rest)).

(** [int] on a group: leading blanks are skipped (the day group may start
    with a space), then decimal characters are read. *)
Fixpoint lstrip (s : pystr) : pystr :=
  match s with
  | c :: s' => if c =? 32 then lstrip s' else s
  | [] => []
  end.

Definition int_group (s : pystr) : result Z :=
  match PyStr.int (lstrip s) with
  | Some n => Ok n
  | None => Raise ValueError
  end.

(** [datetime.strptime(s, "%d.%m.%Y").date()] *)
Definition strptime (s : pystr) : result date :=
  match re_match s with
  | None => Raise ValueError
  | Some (caps, rest) =>
      match rest with
      | _ :: _ => Raise ValueError
      | [] =>
          y <~ int_group (cap_Y caps) ;;
          m <~ int_group (cap_m caps) ;;
          d <~ int_group (cap_d caps) ;;
          date_new y m d
      end
  end.

(** How the C library behind [strftime] prints [%Y]: glibc prints the
    year as a plain decimal number, other libraries pad it with zeros to
    four digits. *)
Inductive libc : Type := GlibcYear | PaddedYear.

Definition fmt_Y (l : libc) (y : Z) : pystr :=
  match l with
  | GlibcYear => digits_plain y
  | PaddedYear => digits_fixed 4 y
  end.

(** [d.strftime("%d.%m.%Y")] *)
Definition strftime (l : libc) (d : date) : pystr :=
  digits_fixed 2 (day d) ++ [ch "."] ++ digits_fixed 2 (month d)
  ++ [ch "."] ++ fmt_Y l (year d).

End StrpTime.
Export StrpTime.

(** ** Fields *)

(** The wrapped value of a field. *)
Inductive pyval : Type :=
| VStr (s : pystr)
| VDate (d : date)
| VNone.

Definition pyval_eqb (a b : pyval) : bool :=
  match a, b with
  | VStr s, VStr t => bool_decide (s = t)
  | VDate d, VDate e => date_eqb d e
  | VNone, VNone => true
  | _, _ => false
  end.

Record Name : Type := mkName { name_value : pystr }.
Record Phone : Type := mkPhone { phone_value : pystr }.
Record Birthday : Type := mkBirthday { birthday_value : option date }.

(** An instance of one of the three subclasses of [Field]. *)
Inductive field : Type :=
| FName (n : Name)
| FPhone (p : Phone)
| FBirthday (b : Birthday).

Inductive cls : Type := CName | CPhone | CBirthday.

(** Any object that can be handed to [__eq__]: a field, or an object of
    another type (a raw string, [None], an integer, a date). *)
Inductive pyobj : Type :=
| OField (f : field)
| OStr (s : pystr)
| ONone
| OInt (z : Z)
| ODate (d : date).

Definition type_of (f : field) : cls :=
  match f with
  | FName _ => CName
  | FPhone _ => CPhone
  | FBirthday _ => CBirthday
  end.

Definition field_value (f : field) : pyval :=
  match f with
  | FName n => VStr (name_value n)
  | FPhone p => VStr (phone_value p)
  | FBirthday b =>
      match birthday_value b with
      | Some d => VDate d
      | None => VNone
      end
  end.

Definition hasattr_value (o : pyobj) : bool :=
  match o with
  | OField _ => true
  | _ => false
  end.

(** [o.value] *)
Definition getattr_value (o : pyobj) : result pyval :=
  match o with
  | OField f => Ok (field_value f)
  | _ => Raise AttributeError
  end.

(** [isinstance(o, c)]; the three classes have no subclasses. *)
Definition isinstance (o : pyobj) (c : cls) : bool :=
  match o, c with
  | OField (FName _), CName => true
  | OField (FPhone _), CPhone => true
  | OField (FBirthday _), CBirthday => true
  | _, _ => false
  end.

(** [Field.__eq__]: the left operand of [and] is evaluated first, and it
    reads [other.value]. *)
Definition Field___eq__ (self : field) (other : pyobj) : result bool :=
  v <~ getattr_value other ;;
  Ok (if pyval_eqb (field_value self) v
      then isinstance other (type_of self)
      else false).

(** [Name.__init__]; the argument is a [str], so only emptiness is left of
    the test. *)
Definition Name___init__ (value : pystr) : result Name :=
  match value with
  | [] => Raise (ValidationError "Invalid name")
  | _ => Ok (mkName value)
  end.

(** [Phone.__init__] *)
Definition Phone___init__ (value : pystr) : result Phone :=
  if negb (isdigit value) || negb (len value =? 10)
  then Raise (ValidationError "Invalid phone number")
  else Ok (mkPhone value).

(** [Birthday.__init__]: a [ValueError] of the parser becomes a
    [ValidationError]. *)
Definition Birthday___init__ (value : pystr) : result Birthday :=
  match strptime value with
  | Ok birthday => Ok (mkBirthday (Some birthday))
  | Raise ValueError =>
      Raise (ValidationError "Invalid date format. Use DD.MM.YYYY")
  | Raise e => Raise e
  end.

(** [Birthday.__str__] *)
Definition Birthday___str__ (l : libc) (self : Birthday) : result pystr :=
  match birthday_value self with
  | Some d => Ok (strftime l d)
  | None => Raise AttributeError
  end.

Definition is_leap_year (y : Z) : bool :=
  (y mod 4 =? 0) && (negb (y mod 100 =? 0) || (y mod 400 =? 0)).

Definition is_29th_february (self : Birthday) : bool :=
  match birthday_value self with
  | None => false
  | Some v => (month v =? 2) && (day v =? 29)
  end.

(** The weekend shift at the end of [next_congritulation_date]. *)
Definition weekend_shift (next_birthday : date) : result date :=
  if weekday next_birthday =? 5 then add_days next_birthday 2
  else if weekday next_birthday =? 6 then add_days next_birthday 1
  else Ok next_birthday.

(** [Birthday.next_congritulation_date]; [today] is the date that
    [datetime.now().date()] returns during the call. *)
Definition next_congritulation_date (today : date) (self : Birthday)
    : result (option date) :=
  match birthday_value self with
  | None => Ok None
  | Some value =>
      next_birthday <~
        (if is_29th_february self && negb (is_leap_year (year today))
         then replace_year_day value (year today) 28
         else replace_year value (year today)) ;;
      next_birthday <~
        (if date_ltb next_birthday today
         then
           if is_29th_february self && is_leap_year (year today + 1)
           then replace_year_day value (year today + 1) 29
           else replace_year next_birthday (year today + 1)
         else Ok next_birthday) ;;
      next_birthday <~ weekend_shift next_birthday ;;
      Ok (Some next_birthday)
  end.

(** ** Records *)

Global Instance Phone_eq_dec : EqDecision Phone.
Proof. solve_decision. Defined.

Global Instance Phone_countable : Countable Phone :=
  inj_countable' phone_value mkPhone (fun p => match p with mkPhone _ => eq_refl end).

(** The attributes of a [Record] object: [phones] is a Python set of [Phone]
    objects, which hash and compare by their value. *)
Record Record_ : Type :=
  mkRecord { name : Name; birthday : option Birthday; phones : gset Phone }.

(** A method of [Record]: it may mutate the object and then return or
    raise; the object after the call is part of the outcome in both cases. *)
Definition M (A : Type) : Type := Record_ -> Record_ * result A.

Definition mret {A} (a : A) : M A := fun r => (r, Ok a).

Definition mraise {A} (e : exn) : M A := fun r => (r, Raise e).

Definition mlift {A} (x : result A) : M A := fun r => (r, x).

Definition mbind_ {A B} (m : M A) (k : A -> M B) : M B :=
  fun r =>
    match m r with
    | (r', Ok a) => k a r'
    | (r', Raise e) => (r', Raise e)
    end.

Notation "x <~~ e ;; k" := (mbind_ e (fun x => k))
  (at level 100, e at next level, right associativity, only parsing).

(** [self.phones] *)
Definition get_phones : M (gset Phone) := fun r => (r, Ok (phones r)).

(** [self.phones.add(p)] *)
Definition phones_add (p : Phone) : M unit :=
  fun r => (mkRecord (name r) (birthday r) ({[ p ]} ∪ phones r), Ok tt).

(** [self.phones.remove(p)]: [KeyError] when [p] is not a member. *)
Definition phones_remove (p : Phone) : M unit :=
  fun r =>
    if decide (p ∈ phones r)
    then (mkRecord (name r) (birthday r) (phones r ∖ {[ p ]}), Ok tt)
    else (r, Raise KeyError).

(** [Record.__init__] *)
Definition Record___init__ (nm : pystr) : result Record_ :=
  n <~ Name___init__ nm ;;
  Ok (mkRecord n None ∅).

Definition add_phone (phone : pystr) : M unit :=
  p <~~ mlift (Phone___init__ phone) ;;
  phones_add p.

Definition remove_phone (phone : pystr) : M unit :=
  phone_obj <~~ mlift (Phone___init__ phone) ;;
  phones_remove phone_obj.

Definition edit_phone (old_phone new_phone : pystr) : M unit :=
  old_phone_obj <~~ mlift (Phone___init__ old_phone) ;;
  ps <~~ get_phones ;;
  if negb (bool_decide (old_phone_obj ∈ ps))
  then mraise (ValidationError "Old phone number not found")
  else
    new_phone_obj <~~ mlift (Phone___init__ new_phone) ;;
    _ <~~ phones_add new_phone_obj ;;
    phones_remove old_phone_obj.

(** [Record.find_phone]: the member whose value is the string, if any. *)
Definition find_phone (phone : pystr) (self : Record_) : option Phone :=
  if decide (mkPhone phone ∈ phones self) then Some (mkPhone phone) else None.

Definition add_birthday (bd : pystr) : M unit :=
  b <~~ mlift (Birthday___init__ bd) ;;
  fun r => (mkRecord (name r) (Some b) (phones r), Ok tt).

(** ** The address book *)

(** [self.data]: a [dict] keeps its keys in insertion order, and assigning to
    an existing key keeps the key's place. *)
Definition AddressBook : Type := list (pystr * Record_).

Fixpoint dict_set (k : pystr) (v : Record_) (d : AddressBook) : AddressBook :=
  match d with
  | [] => [(k, v)]
  | (k', v') :: d' =>
      if decide (k = k') then (k, v) :: d' else (k', v') :: dict_set k v d'
  end.

Fixpoint dict_get (k : pystr) (d : AddressBook) : option Record_ :=
  match d with
  | [] => None
  | (k', v') :: d' => if decide (k = k') then Some v' else dict_get k d'
  end.

Fixpoint dict_del (k : pystr) (d : AddressBook) : AddressBook :=
  match d with
  | [] => []
  | (k', v') :: d' => if decide (k = k') then d' else (k', v') :: dict_del k d'
  end.

(** [self.data.values()] *)
Definition values (d : AddressBook) : list Record_ := List.map snd d.

Definition add_record (record : Record_) (self : AddressBook) : AddressBook :=
  dict_set (name_value (name record)) record self.

Definition find (nm : pystr) (self : AddressBook) : option Record_ :=
  dict_get nm self.

Definition delete (nm : pystr) (self : AddressBook) : AddressBook :=
  match dict_get nm self with
  | Some _ => dict_del nm self
  | None => self
  end.

(** One entry of the list that [get_upcoming_birthdays] returns. *)
Record upcoming : Type :=
  mkUpcoming { u_name : Name; congratulation_day : date }.

(** The window test [0 <= (congratulation_day - today).days < days_ahead]. *)
Definition in_window (today : date) (days_ahead : Z) (d : date) : bool :=
  (0 <=? sub_days d today) && (sub_days d today <? days_ahead).

(** The loop of [get_upcoming_birthdays] over the records left, with the
    list built so far. *)
Fixpoint upcoming_loop (today : date) (days_ahead : Z)
    (records : list Record_) (upcoming_birthdays : list upcoming)
    : result (list upcoming) :=
  match records with
  | [] => Ok upcoming_birthdays
  | record :: rest =>
      match birthday record with
      | None => upcoming_loop today days_ahead rest upcoming_birthdays
      | Some b =>
          congratulation_day <~ next_congritulation_date today b ;;
          match congratulation_day with
          | None => Raise TypeError
          | Some d =>
              if in_window today days_ahead d
              then upcoming_loop today days_ahead rest
                     (upcoming_birthdays ++ [mkUpcoming (name record) d])
              else upcoming_loop today days_ahead rest upcoming_birthdays
          end
      end
  end.

(** [AddressBook.get_upcoming_birthdays]; every reading of the clock during
    the call gives the same date [today]. *)
Definition get_upcoming_birthdays (today : date) (days_ahead : Z)
    (self : AddressBook) : result (list upcoming) :=
  upcoming_loop today days_ahead (values self) [].

(** ** Auxiliary definitions for the proofs *)

(** The month estimate at the end of [_ord2ymd], as a function of the leap
    flag and the zero-based day of the year. *)
Definition month_day (leapyear : bool) (n : Z) : Z * Z :=
  let m := Z.shiftr (n + 50) 5 in
  let preceding :=
    _DAYS_BEFORE_MONTH m + (if (2 <? m) && leapyear then 1 else 0) in
  if n <? preceding then
    let m := m - 1 in
    let preceding :=
      preceding
      - (_DAYS_IN_MONTH m + (if (m =? 2) && leapyear then 1 else 0)) in
    (m, n - preceding + 1)
  else (m, n - preceding + 1).

(** Checked on every day of a year: the estimate gives a month and a day
    of that month, at the right distance from 1 January. *)
Definition offset_ok (leap : bool) (n : Z) : bool :=
  let '(m, d) := month_day leap n in
  (1 <=? m) && (m <=? 12) && (1 <=? d)
  && (d <=? _DAYS_IN_MONTH m + (if (m =? 2) && leap then 1 else 0))
  && (_DAYS_BEFORE_MONTH m + (if (2 <? m) && leap then 1 else 0) + d =? n + 1).

(** Checked on every month and day: the estimate inverts the day count. *)
Definition inverse_ok (leap : bool) (m d : Z) : bool :=
  if d <=? _DAYS_IN_MONTH m + (if (m =? 2) && leap then 1 else 0) then
    let n := _DAYS_BEFORE_MONTH m + (if (2 <? m) && leap then 1 else 0) + d - 1 in
    (0 <=? n) && (n <? 365 + (if leap then 1 else 0))
    && (fst (month_day leap n) =? m) && (snd (month_day leap n) =? d)
    && (implb (n =? 365) ((m =? 12) && (d =? 31)))
  else true.

Definition zrange (lo : Z) (len : nat) : list Z :=
  List.map (fun k => lo + Z.of_nat k) (seq 0 len).

(** The zero-padded form DD.MM.YYYY: ten characters, ASCII digits around two
    full stops. *)
Definition zero_padded_form (s : pystr) : bool :=
  match s with
  | [d1; d2; p1; m1; m2; p2; y1; y2; y3; y4] =>
      forallb char_is_ascii_digit [d1; d2; m1; m2; y1; y2; y3; y4]
      && (p1 =? 46) && (p2 =? 46)
  | _ => false
  end.

(** ** Examples and derived notions used in the statements *)

(** What the weekend shift makes of 28 February of a common year. *)
Definition shifted_feb28 (y : Z) : date :=
  if weekday (mkDate y 2 28) =? 5 then mkDate y 3 2
  else if weekday (mkDate y 2 28) =? 6 then mkDate y 3 1
  else mkDate y 2 28.

Definition bob : Record_ :=
  mkRecord (mkName (py "Bob")) None {[ mkPhone (py "1234567890") ]}.

Definition feb29 : Birthday := mkBirthday (Some (mkDate 2000 2 29)).

(** The entry that a record contributes to the list of upcoming birthdays
    once its celebration date is known. *)
Definition entry_of (today : date) (days_ahead : Z) (record : Record_)
    : list upcoming :=
  match birthday record with
  | None => []
  | Some b =>
      match next_congritulation_date today b with
      | Ok (Some d) =>
          if in_window today days_ahead d
          then [mkUpcoming (name record) d] else []
      | _ => []
      end
  end.

(** Every record that has a birthday gets a celebration date. *)
Definition all_scheduled (today : date) (records : list Record_) : Prop :=
  List.Forall
    (fun record =>
       forall b, birthday record = Some b ->
                 exists d, next_congritulation_date today b = Ok (Some d))
    records.

Definition ann : Record_ := mkRecord (mkName (py "Ann")) (Some feb29) ∅.

(** ** Definitions for the further properties *)

(** Checked on every pair of months: a later month starts after the last
    day of an earlier one. *)
Definition months_ordered (leap : bool) (m1 m2 : Z) : bool :=
  if m1 <? m2 then
    _DAYS_BEFORE_MONTH m1 + (if (2 <? m1) && leap then 1 else 0)
    + (_DAYS_IN_MONTH m1 + (if (m1 =? 2) && leap then 1 else 0))
    <=? _DAYS_BEFORE_MONTH m2 + (if (2 <? m2) && leap then 1 else 0)
  else true.

Definition is_feb29 (v : date) : bool := (month v =? 2) && (day v =? 29).

(** The candidate of the current year, before it is validated. *)
Definition candidate (today v : date) : date :=
  mkDate (year today) (month v)
    (if is_feb29 v && negb (is_leap_year (year today)) then 28 else day v).

(** The candidate after the rollover, before it is validated. *)
Definition rolled (today v : date) : date :=
  let c := candidate today v in
  if date_ltb c today
  then mkDate (year today + 1) (month v)
         (if is_feb29 v && is_leap_year (year today + 1) then 29 else day c)
  else c.

(** Every phone of the record passes the test of [Phone.__init__]. *)
Definition phones_valid (r : Record_) : Prop :=
  forall p, p ∈ phones r -> is_ok (Phone___init__ (phone_value p)) = true.

(** The loop of [find_phone], over the phones in the order in which the set
    hands them out. *)
Definition find_phone_loop (phone : pystr) (order : list Phone)
    : option Phone :=
  List.find (fun p => bool_decide (phone_value p = phone)) order.

(** [self.data.keys()] *)
Definition keys (d : AddressBook) : list pystr := List.map fst d.

Global Instance date_eq_dec : EqDecision date.
Proof. solve_decision. Defined.

Global Instance Name_eq_dec : EqDecision Name.
Proof. solve_decision. Defined.

Global Instance Birthday_eq_dec : EqDecision Birthday.
Proof. solve_decision. Defined.

Global Instance field_eq_dec : EqDecision field.
Proof. solve_decision. Defined.

(** ** The command handlers *)

Module Handlers.

(** Code points for which [str.isspace] holds (Unicode 14.0); [str.split]
    without argument splits at runs of them. *)
Definition space_ranges : list (Z * Z) :=
  [ (9, 13); (28, 32); (133, 133); (160, 160); (5760, 5760); (8192, 8202);
    (8232, 8233); (8239, 8239); (8287, 8287); (12288, 12288) ].

Definition char_isspace (c : Z) : bool := in_ranges space_ranges c.

(** [s.split()] where [cur] is the word read so far. *)
Fixpoint split_from (cur s : pystr) : list pystr :=
  match s with
  | [] => match cur with [] => [] | _ => [cur] end
  | c :: s' =>
      if char_isspace c
      then match cur with
           | [] => split_from [] s'
           | _ => cur :: split_from [] s'
           end
      else split_from (cur ++ [c]) s'
  end.

Definition split (s : pystr) : list pystr := split_from [] s.

(** [sep.join(parts)] *)
Fixpoint join (sep : pystr) (parts : list pystr) : pystr :=
  match parts with
  | [] => []
  | [p] => p
  | p :: rest => p ++ sep ++ join sep rest
  end.

(** [parse_input]: the command, [None] when there is no word, and the
    arguments. *)
Definition parse_input (user_input : pystr) : option pystr * list pystr :=
  match split user_input with
  | [] => (None, [])
  | cmd :: args => (Some cmd, args)
  end.

(** A handler is called with the book and the words after the command; it
    may change the book and returns a message or raises. *)
Definition handler : Type :=
  list pystr -> AddressBook -> AddressBook * result pystr.

(** The decorator [input_error]. *)
Definition input_error (func : handler) : handler :=
  fun args book =>
    let '(book', r) := func args book in
    (book',
     match r with
     | Ok s => Ok s
     | Raise TypeError => Ok (py "Invalid number of parameters.")
     | Raise KeyError => Ok (py "Contact not found.")
     | Raise ValueError =>
         Ok (py "Invalid input. Please enter the correct data.")
     | Raise (ValidationError ve) => Ok (py ve)
     | Raise e => Raise e
     end).

(** The truth value of a string. *)
Definition truthy (s : pystr) : bool :=
  match s with [] => false | _ => true end.

(** A method call on the record object that the book holds under [key]:
    the object is shared, so the book sees what the method did to it. *)
Definition on_record (key : pystr) (record : Record_) (m : M unit)
    (book : AddressBook) : AddressBook * result unit :=
  let '(record', res) := m record in (dict_set key record' book, res).

(** The body of [handle_add]; a call with another number of words than two
    is a TypeError. *)
Definition handle_add_func : handler :=
  fun args book =>
    match args with
    | [nm; phone] =>
        let '(book, r) :=
          match find nm book with
          | Some record => (book, Ok (record, py "Contact updated."))
          | None =>
              match Record___init__ nm with
              | Ok record =>
                  (add_record record book, Ok (record, py "Contact added."))
              | Raise e => (book, Raise e)
              end
          end in
        match r with
        | Raise e => (book, Raise e)
        | Ok (record, message) =>
            if truthy phone
            then
              let '(book, res) :=
                on_record nm record (add_phone phone) book in
              (book, rbind res (fun _ => Ok message))
            else (book, Ok message)
        end
    | _ => (book, Raise TypeError)
    end.

Definition handle_add : handler := input_error handle_add_func.

Definition handle_change_func : handler :=
  fun args book =>
    match args with
    | [nm; old_phone; new_phone] =>
        match find nm book with
        | None => (book, Ok (py "Contact not found."))
        | Some record =>
            let '(book, res) :=
              on_record nm record (edit_phone old_phone new_phone) book in
            (book, rbind res (fun _ => Ok (py "Contact updated.")))
        end
    | _ => (book, Raise TypeError)
    end.

Definition handle_change : handler := input_error handle_change_func.

Definition handle_add_birthday_func : handler :=
  fun args book =>
    match args with
    | [nm; bd] =>
        match find nm book with
        | None => (book, Ok (py "Contact not found."))
        | Some record =>
            let '(book, res) := on_record nm record (add_birthday bd) book in
            (book, rbind res (fun _ => Ok (py "Birthday added.")))
        end
    | _ => (book, Raise TypeError)
    end.

Definition handle_add_birthday : handler :=
  input_error handle_add_birthday_func.

Definition handle_show_birthday_func (l : libc) : handler :=
  fun args book =>
    match args with
    | [nm] =>
        match find nm book with
        | None => (book, Ok (py "Contact not found."))
        | Some record =>
            match birthday record with
            | None => (book, Ok (py "Birthday not set."))
            | Some b =>
                (book,
                 s <~ Birthday___str__ l b ;;
                 Ok (nm ++ py "'s birthday is " ++ s ++ py "."))
            end
        end
    | _ => (book, Raise TypeError)
    end.

Definition handle_show_birthday (l : libc) : handler :=
  input_error (handle_show_birthday_func l).

(** [str(d)] of a date: ISO format, always padded. *)
Definition date_str (d : date) : pystr :=
  digits_fixed 4 (year d) ++ py "-" ++ digits_fixed 2 (month d)
  ++ py "-" ++ digits_fixed 2 (day d).

Definition upcoming_line (item : upcoming) : pystr :=
  name_value (u_name item) ++ py ": " ++ date_str (congratulation_day item).

Definition handle_upcoming_birthdays_func (today : date) : handler :=
  fun args book =>
    match args with
    | [] =>
        (book,
         upcoming <~ get_upcoming_birthdays today 7 book ;;
         match upcoming with
         | [] => Ok (py "No upcoming birthdays.")
         | _ => Ok (join [10] (List.map upcoming_line upcoming))
         end)
    | _ => (book, Raise TypeError)
    end.

Definition handle_upcoming_birthdays (today : date) : handler :=
  input_error (handle_upcoming_birthdays_func today).

End Handlers.
Export Handlers.

(** The record is a 29 February birthday whose candidate of the current leap
    year lies before today. *)
Definition feb29_stuck (today : date) (record : Record_) : bool :=
  match birthday record with
  | Some b =>
      is_29th_february b && is_leap_year (year today)
      && date_ltb (mkDate (year today) 2 29) today
  | None => false
  end.

(** Every birthday of the book holds a valid date, as the constructor
    leaves it. *)
Definition birthdays_valid (records : list Record_) : Prop :=
  List.Forall
    (fun record =>
       forall b, birthday record = Some b ->
                 exists v, birthday_value b = Some v /\ valid_date v = true)
    records.

(** The text of [handle_upcoming_birthdays] for a list of entries. *)
Definition upcoming_text (items : list upcoming) : pystr :=
  match items with
  | [] => py "No upcoming birthdays."
  | _ => join [10] (List.map upcoming_line items)
  end.

(** A word: not empty and free of whitespace. *)
Definition is_word (w : pystr) : bool :=
  truthy w && forallb (fun c => negb (char_isspace c)) w.

(** The words of a parsed line, command first. *)
Definition words_of (p : option pystr * list pystr) : list pystr :=
  match fst p with
  | Some cmd => cmd :: snd p
  | None => snd p
  end.

(** What holds of an entry of the list of upcoming birthdays. *)
Definition entry_sound (today : date) (days_ahead : Z)
    (records : list Record_) (u : upcoming) : Prop :=
  in_window today days_ahead (congratulation_day u) = true
  /\ 0 <= weekday (congratulation_day u) <= 4
  /\ exists record b,
       In record records /\ name record = u_name u
       /\ birthday record = Some b
       /\ next_congritulation_date today b = Ok (Some (congratulation_day u)).

Definition zero : Record_ :=
  mkRecord (mkName (py "Zero")) (Some (mkBirthday (Some (mkDate 1990 3 11)))) ∅.

Definition seven : Record_ :=
  mkRecord (mkName (py "Seven")) (Some (mkBirthday (Some (mkDate 1985 3 18)))) ∅.

(** * Properties *)

(** ** The calendar: ordinals and dates *)

Lemma is_leap_spec y :
  _is_leap y = true <-> (y mod 4 = 0 /\ (y mod 100 <> 0 \/ y mod 400 = 0)).
Proof.
  unfold _is_leap.
  rewrite andb_true_iff, orb_true_iff, negb_true_iff, !Z.eqb_eq, Z.eqb_neq.
  tauto.
Qed.

Lemma days_before_year_split a b c e :
  0 <= b <= 3 -> 0 <= c <= 24 -> 0 <= e <= 3 ->
  _days_before_year (400 * a + 100 * b + 4 * c + e + 1)
  = 146097 * a + 36524 * b + 1461 * c + 365 * e.
Proof.
  intros Hb Hc He. unfold _days_before_year. cbv zeta.
  replace (400 * a + 100 * b + 4 * c + e + 1 - 1)
    with (400 * a + 100 * b + 4 * c + e) by lia.
  assert ((400 * a + 100 * b + 4 * c + e) / 4 = 100 * a + 25 * b + c) as ->.
  { symmetry. apply Z.div_unique with e; lia. }
  assert ((400 * a + 100 * b + 4 * c + e) / 100 = 4 * a + b) as ->.
  { symmetry. apply Z.div_unique with (4 * c + e); lia. }
  assert ((400 * a + 100 * b + 4 * c + e) / 400 = a) as ->.
  { symmetry. apply Z.div_unique with (100 * b + 4 * c + e); lia. }
  lia.
Qed.

Lemma is_leap_split a b c e :
  0 <= b <= 3 -> 0 <= c <= 24 -> 0 <= e <= 3 ->
  _is_leap (400 * a + 100 * b + 4 * c + e + 1)
  = (e =? 3) && (negb (c =? 24) || (b =? 3)).
Proof.
  intros Hb Hc He.
  apply eq_true_iff_eq. rewrite is_leap_spec.
  rewrite andb_true_iff, orb_true_iff, negb_true_iff, !Z.eqb_eq, Z.eqb_neq.
  set (y := 400 * a + 100 * b + 4 * c + e + 1).
  assert (y mod 4 = (e + 1) mod 4) as ->.
  { unfold y. replace (400 * a + 100 * b + 4 * c + e + 1)
      with ((e + 1) + (100 * a + 25 * b + c) * 4) by lia.
    apply Z_mod_plus_full. }
  assert (y mod 100 = (4 * c + e + 1) mod 100) as ->.
  { unfold y. replace (400 * a + 100 * b + 4 * c + e + 1)
      with ((4 * c + e + 1) + (4 * a + b) * 100) by lia.
    apply Z_mod_plus_full. }
  assert (y mod 400 = (100 * b + 4 * c + e + 1) mod 400) as ->.
  { unfold y. replace (400 * a + 100 * b + 4 * c + e + 1)
      with ((100 * b + 4 * c + e + 1) + a * 400) by lia.
    apply Z_mod_plus_full. }
  split; intros; Z.div_mod_to_equations; lia.
Qed.

Lemma zrange_forallb (f : Z -> bool) lo len :
  forallb f (zrange lo len) = true ->
  forall x, lo <= x < lo + Z.of_nat len -> f x = true.
Proof.
  intros H x Hx. rewrite forallb_forall in H. apply H.
  unfold zrange. apply in_map_iff. exists (Z.to_nat (x - lo)). split; [lia|].
  apply in_seq. lia.
Qed.

Lemma offset_ok_all (leap : bool) n :
  0 <= n < 365 + (if leap then 1 else 0) -> offset_ok leap n = true.
Proof.
  intros Hn. destruct leap.
  - apply (zrange_forallb (offset_ok true) 0 366); [vm_compute; reflexivity | lia].
  - apply (zrange_forallb (offset_ok false) 0 365); [vm_compute; reflexivity | lia].
Qed.

Lemma ord2ymd_unfold n :
  _ord2ymd n =
    let n0 := n - 1 in
    let a := n0 / 146097 in
    let r1 := n0 mod 146097 in
    let b := r1 / 36524 in
    let r2 := r1 mod 36524 in
    let c := r2 / 1461 in
    let r3 := r2 mod 1461 in
    let e := r3 / 365 in
    let r4 := r3 mod 365 in
    if (e =? 4) || (b =? 4)
    then mkDate (a * 400 + 1 + b * 100 + c * 4 + e - 1) 12 31
    else let md := month_day ((e =? 3) && (negb (c =? 24) || (b =? 3))) r4 in
         mkDate (a * 400 + 1 + b * 100 + c * 4 + e) (fst md) (snd md).
Proof.
  unfold _ord2ymd, month_day, _DI400Y, _DI100Y, _DI4Y. cbv zeta.
  destruct (_ || _); [reflexivity|].
  destruct (_ <? _); reflexivity.
Qed.

Lemma days_in_month_leap y m :
  _days_in_month y m = _DAYS_IN_MONTH m + (if (m =? 2) && _is_leap y then 1 else 0).
Proof.
  unfold _days_in_month. destruct ((m =? 2) && _is_leap y) eqn:E; [|lia].
  apply andb_true_iff in E as [E _]. apply Z.eqb_eq in E. subst. reflexivity.
Qed.

Lemma ord2ymd_ymd2ord n :
  1 <= n <= _MAXORDINAL ->
  valid_date (_ord2ymd n) = true /\ toordinal (_ord2ymd n) = n.
Proof.
  unfold _MAXORDINAL. intros Hn. rewrite ord2ymd_unfold. cbv zeta.
  set (n0 := n - 1).
  set (a := n0 / 146097). set (r1 := n0 mod 146097).
  set (b := r1 / 36524). set (r2 := r1 mod 36524).
  set (c := r2 / 1461). set (r3 := r2 mod 1461).
  set (e := r3 / 365). set (r4 := r3 mod 365).
  assert (Ha : 0 <= a <= 24) by (subst a n0; Z.div_mod_to_equations; lia).
  assert (Hr1 : n0 = 146097 * a + r1 /\ 0 <= r1 < 146097)
    by (subst a r1; Z.div_mod_to_equations; lia).
  assert (Hr2 : r1 = 36524 * b + r2 /\ 0 <= r2 < 36524 /\ 0 <= b <= 4)
    by (subst b r2; Z.div_mod_to_equations; lia).
  assert (Hr3 : r2 = 1461 * c + r3 /\ 0 <= r3 < 1461 /\ 0 <= c <= 24)
    by (subst c r3; Z.div_mod_to_equations; lia).
  assert (Hr4 : r3 = 365 * e + r4 /\ 0 <= r4 < 365 /\ 0 <= e <= 4)
    by (subst e r4; Z.div_mod_to_equations; lia).
  clearbody a r1 b r2 c r3 e r4.
  unfold valid_date, toordinal, valid_ymd, _ymd2ord, MINYEAR, MAXYEAR.
  destruct ((e =? 4) || (b =? 4)) eqn:E; cbn [year month day].
  - apply orb_true_iff in E. rewrite !Z.eqb_eq in E.
    assert (Hy : exists b' c', a * 400 + 1 + b * 100 + c * 4 + e - 1
                 = 400 * a + 100 * b' + 4 * c' + 3 + 1
                 /\ 0 <= b' <= 3 /\ 0 <= c' <= 24 /\ (c' <> 24 \/ b' = 3)
                 /\ 36524 * b + 1461 * c + 365 * e + r4 + 1
                    = 36524 * b' + 1461 * c' + 365 * 3 + 366).
    { destruct (Z.eq_dec b 4) as [->|Hb].
      - exists 3, 24. lia.
      - exists b, c. lia. }
    destruct Hy as (b' & c' & -> & Hb' & Hc' & Hl & Hsum).
    unfold _days_before_month, _days_in_month.
    rewrite days_before_year_split, is_leap_split by lia.
    replace ((3 =? 3) && (negb (c' =? 24) || (b' =? 3))) with true
      by (symmetry; apply andb_true_iff; split; [reflexivity|];
          apply orb_true_iff; rewrite negb_true_iff, Z.eqb_neq, Z.eqb_eq; lia).
    cbn. split; [|lia].
    repeat (apply andb_true_iff; split); lia.
  - apply orb_false_iff in E. rewrite !Z.eqb_neq in E.
    replace (a * 400 + 1 + b * 100 + c * 4 + e)
      with (400 * a + 100 * b + 4 * c + e + 1) by lia.
    set (leap := (e =? 3) && (negb (c =? 24) || (b =? 3))).
    assert (Hleap : _is_leap (400 * a + 100 * b + 4 * c + e + 1) = leap)
      by (apply is_leap_split; lia).
    pose proof (offset_ok_all leap r4 ltac:(destruct leap; lia)) as Hok.
    unfold offset_ok in Hok. destruct (month_day leap r4) as [m d].
    cbn [fst snd].
    rewrite !andb_true_iff, !Z.leb_le, Z.eqb_eq in Hok.
    unfold _days_before_month. rewrite days_in_month_leap, Hleap.
    rewrite days_before_year_split by lia.
    split; [|lia].
    repeat (apply andb_true_iff; split); lia.
Qed.

Lemma inverse_ok_all (leap : bool) m d :
  1 <= m <= 12 -> 1 <= d -> inverse_ok leap m d = true.
Proof.
  intros Hm Hd.
  destruct (Z_le_gt_dec d 31) as [Hd'|Hd'].
  - revert d Hd Hd'.
    assert (forallb (fun m => forallb (inverse_ok leap m) (zrange 1 31))
              (zrange 1 12) = true) as H
      by (destruct leap; vm_compute; reflexivity).
    intros d Hd Hd'.
    pose proof (zrange_forallb _ 1 12 H m ltac:(lia)) as H'. cbv beta in H'.
    apply (zrange_forallb _ 1 31 H' d). lia.
  - unfold inverse_ok.
    assert (_DAYS_IN_MONTH m + (if (m =? 2) && leap then 1 else 0) < d) as Hlt.
    { assert (_DAYS_IN_MONTH m <= 31).
      { assert (m = 1 \/ m = 2 \/ m = 3 \/ m = 4 \/ m = 5 \/ m = 6 \/ m = 7
                \/ m = 8 \/ m = 9 \/ m = 10 \/ m = 11 \/ m = 12) as Hc by lia.
        repeat (destruct Hc as [-> | Hc]; [cbn; lia|]). subst; cbn; lia. }
      destruct (m =? 2) eqn:E; [apply Z.eqb_eq in E; subst; destruct leap; cbn; lia|].
      cbn. lia. }
    apply Z.leb_gt in Hlt. rewrite Hlt. reflexivity.
Qed.

Lemma year_split y :
  exists a b c e, y = 400 * a + 100 * b + 4 * c + e + 1
                  /\ 0 <= b <= 3 /\ 0 <= c <= 24 /\ 0 <= e <= 3.
Proof.
  exists ((y - 1) / 400), ((y - 1) mod 400 / 100),
         ((y - 1) mod 400 mod 100 / 4), ((y - 1) mod 400 mod 100 mod 4).
  Z.div_mod_to_equations. lia.
Qed.

Lemma ymd2ord_ord2ymd d :
  valid_date d = true ->
  _ord2ymd (toordinal d) = d /\ 1 <= toordinal d <= _MAXORDINAL.
Proof.
  destruct d as [y m d].
  unfold valid_date, valid_ymd, toordinal, _ymd2ord, MINYEAR, MAXYEAR,
    _MAXORDINAL.
  cbn [year month day]. rewrite !andb_true_iff, !Z.leb_le.
  intros (((((Hy1 & Hy2) & Hm1) & Hm2) & Hd1) & Hd2).
  destruct (year_split y) as (a & b & c & e & -> & Hb & Hc & He).
  rewrite days_in_month_leap in Hd2. unfold _days_before_month.
  rewrite days_before_year_split by lia.
  rewrite is_leap_split in * by lia.
  set (leap := (e =? 3) && (negb (c =? 24) || (b =? 3))) in *.
  pose proof (inverse_ok_all leap m d ltac:(lia) Hd1) as Hinv.
  unfold inverse_ok in Hinv. apply Z.leb_le in Hd2. rewrite Hd2 in Hinv.
  cbv zeta in Hinv.
  set (doy := _DAYS_BEFORE_MONTH m + (if (2 <? m) && leap then 1 else 0)
              + d - 1) in Hinv.
  replace (146097 * a + 36524 * b + 1461 * c + 365 * e +
           (_DAYS_BEFORE_MONTH m + (if (2 <? m) && leap then 1 else 0)) + d)
    with (146097 * a + 36524 * b + 1461 * c + 365 * e + doy + 1)
    by (subst doy; lia).
  clearbody doy.
  rewrite !andb_true_iff, Z.leb_le, Z.ltb_lt, !Z.eqb_eq in Hinv.
  destruct Hinv as ((((Hn0 & Hn1) & Hfst) & Hsnd) & Himp).
  assert (Hleap : leap = true -> e = 3 /\ (c <> 24 \/ b = 3)).
  { subst leap. rewrite andb_true_iff, orb_true_iff, negb_true_iff,
      !Z.eqb_eq, Z.eqb_neq. tauto. }
  assert (Hdoy : doy <= 364 \/ (doy = 365 /\ e = 3 /\ (c <> 24 \/ b = 3)))
    by (destruct leap; [specialize (Hleap eq_refl)|]; lia).
  assert (Ha : 0 <= a <= 24) by lia.
  split; [|lia].
  rewrite ord2ymd_unfold. cbv zeta.
  replace (146097 * a + 36524 * b + 1461 * c + 365 * e + doy + 1 - 1)
    with (146097 * a + 36524 * b + 1461 * c + 365 * e + doy) by lia.
  set (n0 := 146097 * a + 36524 * b + 1461 * c + 365 * e + doy).
  set (a' := n0 / 146097). set (r1 := n0 mod 146097).
  set (b' := r1 / 36524). set (r2 := r1 mod 36524).
  set (c' := r2 / 1461). set (r3 := r2 mod 1461).
  set (e' := r3 / 365). set (r4 := r3 mod 365).
  assert (Hr1 : n0 = 146097 * a' + r1 /\ 0 <= r1 < 146097)
    by (subst a' r1; Z.div_mod_to_equations; lia).
  assert (Hr2 : r1 = 36524 * b' + r2 /\ 0 <= r2 < 36524)
    by (subst b' r2; Z.div_mod_to_equations; lia).
  assert (Hr3 : r2 = 1461 * c' + r3 /\ 0 <= r3 < 1461)
    by (subst c' r3; Z.div_mod_to_equations; lia).
  assert (Hr4 : r3 = 365 * e' + r4 /\ 0 <= r4 < 365)
    by (subst e' r4; Z.div_mod_to_equations; lia).
  clearbody a' r1 b' r2 c' r3 e' r4. subst n0.
  assert (a' = a) as -> by lia.
  destruct (Z.eq_dec doy 365) as [Hd365|Hd365].
  - assert (m = 12 /\ d = 31) as [-> ->].
    { apply Z.eqb_eq in Hd365. rewrite Hd365 in Himp. cbn in Himp.
      apply andb_true_iff in Himp. rewrite !Z.eqb_eq in Himp. exact Himp. }
    destruct (Z.eq_dec b' 4) as [Eb|Eb].
    + subst b'. assert (c' = 0 /\ e' = 0 /\ b = 3 /\ c = 24 /\ e = 3) as (-> & -> & -> & -> & ->) by lia.
      cbn. f_equal. lia.
    + assert (b' = b /\ c' = c /\ e' = 4 /\ e = 3) as (-> & -> & -> & ->) by lia.
      cbn. f_equal. lia.
  - assert (b' = b /\ c' = c /\ e' = e /\ r4 = doy) as (-> & -> & -> & ->) by lia.
    replace ((e =? 4) || (b =? 4)) with false
      by (symmetry; apply orb_false_iff; rewrite !Z.eqb_neq; lia).
    fold leap. rewrite Hfst, Hsnd. f_equal. lia.
Qed.

(** ** Scheduling the next celebration *)

Lemma date_new_ok y m d x :
  date_new y m d = Ok x -> x = mkDate y m d /\ valid_date x = true.
Proof.
  unfold date_new. destruct (valid_ymd y m d) eqn:E; [|discriminate].
  intros [= <-]. split; [reflexivity | exact E].
Qed.

Lemma date_new_valid y m d :
  valid_ymd y m d = true -> date_new y m d = Ok (mkDate y m d).
Proof. unfold date_new. intros ->. reflexivity. Qed.

Lemma add_days_ok c k d :
  add_days c k = Ok d ->
  toordinal d = toordinal c + k /\ valid_date d = true.
Proof.
  unfold add_days.
  destruct ((0 <? toordinal c + k) && (toordinal c + k <=? _MAXORDINAL)) eqn:E;
    [|discriminate].
  apply andb_true_iff in E as [E1 E2]. apply Z.ltb_lt in E1. apply Z.leb_le in E2.
  intros [= <-]. unfold fromordinal.
  destruct (ord2ymd_ymd2ord (toordinal c + k)) as [Hv Ho]; [lia|]. tauto.
Qed.

Lemma weekday_range d : 0 <= weekday d <= 6.
Proof. unfold weekday. Z.div_mod_to_equations. lia. Qed.

Lemma weekend_shift_weekday c d :
  weekend_shift c = Ok d -> 0 <= weekday d <= 4.
Proof.
  unfold weekend_shift.
  destruct (weekday c =? 5) eqn:E5; [|destruct (weekday c =? 6) eqn:E6].
  - apply Z.eqb_eq in E5. intros H. apply add_days_ok in H as [H _].
    unfold weekday in *. rewrite H. Z.div_mod_to_equations. lia.
  - apply Z.eqb_eq in E6. intros H. apply add_days_ok in H as [H _].
    unfold weekday in *. rewrite H. Z.div_mod_to_equations. lia.
  - intros [= <-]. apply Z.eqb_neq in E5, E6.
    pose proof (weekday_range c). lia.
Qed.

Lemma next_congritulation_date_shifted today b d :
  next_congritulation_date today b = Ok (Some d) ->
  exists c, weekend_shift c = Ok d.
Proof.
  unfold next_congritulation_date.
  destruct (birthday_value b) as [v|]; [|discriminate].
  destruct (if is_29th_february b && negb (is_leap_year (year today))
            then replace_year_day v (year today) 28
            else replace_year v (year today)) as [c1|]; [|discriminate].
  cbn [rbind].
  destruct (if date_ltb c1 today
            then if is_29th_february b && is_leap_year (year today + 1)
                 then replace_year_day v (year today + 1) 29
                 else replace_year c1 (year today + 1)
            else Ok c1) as [c2|]; [|discriminate].
  cbn [rbind].
  destruct (weekend_shift c2) as [d'|] eqn:E; [|discriminate].
  cbn [rbind]. intros [= <-]. exists c2. exact E.
Qed.

(** C5: whenever the scheduling function returns a date, for any birthday
    and any current date, that date is neither a Saturday (5) nor a Sunday
    (6): the weekend shift comes last and lands on a Monday. *)
Theorem next_congritulation_date_weekday today b d :
  next_congritulation_date today b = Ok (Some d) ->
  weekday d <> 5 /\ weekday d <> 6.
Proof.
  intros H. apply next_congritulation_date_shifted in H as [c H].
  apply weekend_shift_weekday in H. lia.
Qed.

Lemma is_leap_year_eq y : is_leap_year y = _is_leap y.
Proof. reflexivity. Qed.

Lemma feb28_valid y : 1 <= y <= 9999 -> valid_ymd y 2 28 = true.
Proof.
  intros Hy. unfold valid_ymd, MINYEAR, MAXYEAR, _days_in_month.
  repeat (apply andb_true_iff; split); try lia.
  apply Z.leb_le. destruct ((2 =? 2) && _is_leap y); cbn; lia.
Qed.

Lemma non_leap_in_range y :
  1 <= y <= 9999 -> is_leap_year (y + 1) = false -> 1 <= y + 1 <= 9999.
Proof.
  intros Hy Hl. destruct (Z.eq_dec y 9999) as [->|]; [discriminate Hl | lia].
Qed.

Lemma add_days_feb28 y k :
  1 <= y <= 9999 -> _is_leap y = false -> 1 <= k <= 2 ->
  add_days (mkDate y 2 28) k = Ok (mkDate y 3 k).
Proof.
  intros Hy Hl Hk.
  assert (valid_ymd y 3 k = true) as Hv.
  { unfold valid_ymd, MINYEAR, MAXYEAR.
    change (_days_in_month y 3) with 31.
    repeat (apply andb_true_iff; split); lia. }
  destruct (ymd2ord_ord2ymd (mkDate y 2 28) (feb28_valid y Hy)) as [_ B1].
  destruct (ymd2ord_ord2ymd (mkDate y 3 k) Hv) as [R2 B2].
  unfold add_days.
  assert (toordinal (mkDate y 2 28) + k = toordinal (mkDate y 3 k)) as ->
    by (unfold toordinal, _ymd2ord, _days_before_month; cbn; rewrite Hl; cbn; lia).
  replace ((0 <? _) && (_ <=? _MAXORDINAL)) with true
    by (symmetry; apply andb_true_iff; rewrite Z.ltb_lt, Z.leb_le; lia).
  unfold fromordinal. rewrite R2. reflexivity.
Qed.

Lemma weekend_shift_feb28 y :
  1 <= y <= 9999 -> _is_leap y = false ->
  weekend_shift (mkDate y 2 28) = Ok (shifted_feb28 y).
Proof.
  intros Hy Hl. unfold weekend_shift, shifted_feb28.
  destruct (_ =? 5); [apply add_days_feb28; (assumption || lia)|].
  destruct (_ =? 6); [apply add_days_feb28; (assumption || lia)|]. reflexivity.
Qed.

(** C1, as amended: for a 29 February birthday and a current date in a
    common year, after 28 February of that year and with a common year
    following, the scheduling function returns a date, namely 28 February of
    the following year after the weekend shift: 2 March when that day is a
    Saturday, 1 March when it is a Sunday, 28 February itself otherwise. *)
Theorem feb29_rollover_common_year today b :
  valid_date today = true ->
  is_29th_february b = true ->
  is_leap_year (year today) = false ->
  date_ltb (mkDate (year today) 2 28) today = true ->
  is_leap_year (year today + 1) = false ->
  next_congritulation_date today b = Ok (Some (shifted_feb28 (year today + 1))).
Proof.
  intros Hv Hb Hl Hlt Hl1.
  assert (Hy : 1 <= year today <= 9999).
  { unfold valid_date, valid_ymd, MINYEAR, MAXYEAR in Hv.
    rewrite !andb_true_iff, !Z.leb_le in Hv. lia. }
  pose proof (non_leap_in_range _ Hy Hl1) as Hy1.
  unfold next_congritulation_date.
  destruct (birthday_value b) as [v|] eqn:Ev;
    [|unfold is_29th_february in Hb; rewrite Ev in Hb; discriminate].
  assert (Hm : month v = 2).
  { unfold is_29th_february in Hb. rewrite Ev in Hb.
    apply andb_true_iff in Hb as [Hb _]. apply Z.eqb_eq in Hb. exact Hb. }
  rewrite Hb, Hl, Hl1. cbn [negb andb].
  unfold replace_year_day. rewrite Hm, (date_new_valid _ _ _ (feb28_valid _ Hy)).
  cbn [rbind]. rewrite Hlt.
  unfold replace_year. cbn [month day].
  rewrite (date_new_valid _ _ _ (feb28_valid _ Hy1)). cbn [rbind].
  rewrite weekend_shift_feb28 by (rewrite <- ?is_leap_year_eq; assumption).
  reflexivity.
Qed.

(** The rollover of a 29 February that was kept in a leap year: the
    candidate of the current year is 29 February, the following year is
    never a leap year, and [replace] has no such day there. *)
Lemma feb29_rollover_leap_year_raises today b :
  valid_date today = true ->
  is_29th_february b = true ->
  is_leap_year (year today) = true ->
  date_ltb (mkDate (year today) 2 29) today = true ->
  next_congritulation_date today b = Raise ValueError.
Proof.
  intros Hv Hb Hl Hlt.
  assert (Hy : 1 <= year today <= 9999).
  { unfold valid_date, valid_ymd, MINYEAR, MAXYEAR in Hv.
    rewrite !andb_true_iff, !Z.leb_le in Hv. lia. }
  unfold next_congritulation_date.
  destruct (birthday_value b) as [v|] eqn:Ev;
    [|unfold is_29th_february in Hb; rewrite Ev in Hb; discriminate].
  assert (Hmd : month v = 2 /\ day v = 29).
  { unfold is_29th_february in Hb. rewrite Ev in Hb.
    apply andb_true_iff in Hb. rewrite !Z.eqb_eq in Hb. exact Hb. }
  destruct Hmd as [Hm Hd].
  assert (Hl1 : is_leap_year (year today + 1) = false).
  { rewrite is_leap_year_eq in *. apply is_leap_spec in Hl.
    apply not_true_is_false. rewrite is_leap_spec.
    Z.div_mod_to_equations. lia. }
  rewrite Hb, Hl, Hl1. cbn [negb andb].
  unfold replace_year. rewrite Hm, Hd.
  assert (valid_ymd (year today) 2 29 = true) as Hv29.
  { unfold valid_ymd, MINYEAR, MAXYEAR, _days_in_month.
    rewrite <- is_leap_year_eq, Hl. cbn.
    repeat (apply andb_true_iff; split); lia. }
  rewrite (date_new_valid _ _ _ Hv29). cbn [rbind]. rewrite Hlt.
  cbn [month day]. unfold date_new.
  replace (valid_ymd (year today + 1) 2 29) with false; [reflexivity|].
  symmetry. unfold valid_ymd, _days_in_month.
  rewrite <- is_leap_year_eq, Hl1. cbn.
  rewrite !andb_false_iff. right. reflexivity.
Qed.

(** The two schedules of the specification's examples. *)
Lemma next_congritulation_date_examples :
  Birthday___init__ (py "29.02.2024")
    = Ok (mkBirthday (Some (mkDate 2024 2 29)))
  /\ next_congritulation_date (mkDate 2025 1 1)
       (mkBirthday (Some (mkDate 2024 2 29))) = Ok (Some (mkDate 2025 2 28))
  /\ next_congritulation_date (mkDate 2024 3 20)
       (mkBirthday (Some (mkDate 1990 3 15))) = Ok (Some (mkDate 2025 3 17)).
Proof. vm_compute. auto. Qed.

(** C1, counterexample: for the birthday 29.02.2000, on 1 March 2025 the
    function returns Monday 2 March 2026, because 28 February 2026 is a
    Saturday; on 1 March 2024 it raises ValueError. *)
Lemma feb29_rollover_counterexample :
  is_29th_february feb29 = true
  /\ (date_ltb (mkDate 2025 2 28) (mkDate 2025 3 1) = true
      /\ is_leap_year (2025 + 1) = false
      /\ next_congritulation_date (mkDate 2025 3 1) feb29
         = Ok (Some (mkDate 2026 3 2)))
  /\ (date_ltb (mkDate 2024 2 29) (mkDate 2024 3 1) = true
      /\ is_leap_year (2024 + 1) = false
      /\ next_congritulation_date (mkDate 2024 3 1) feb29 = Raise ValueError).
Proof. vm_compute. auto 10. Qed.

Lemma feb29_rollover_common_year_witness :
  next_congritulation_date (mkDate 2025 3 1) feb29
  = Ok (Some (shifted_feb28 (2025 + 1))).
Proof.
  apply (feb29_rollover_common_year (mkDate 2025 3 1) feb29); reflexivity.
Defined.

Lemma next_congritulation_date_weekday_witness :
  weekday (mkDate 2025 3 17) <> 5 /\ weekday (mkDate 2025 3 17) <> 6.
Proof.
  apply (next_congritulation_date_weekday (mkDate 2024 3 20)
           (mkBirthday (Some (mkDate 1990 3 15)))).
  vm_compute. reflexivity.
Defined.

(** ** Parsing what [strftime] prints *)

Lemma zrange_Forall (P : Z -> Prop) lo len :
  Forall P (zrange lo len) -> forall x, lo <= x < lo + Z.of_nat len -> P x.
Proof.
  intros H x Hx. rewrite Forall_forall in H. apply H.
  apply list_elem_of_In. unfold zrange. apply in_map_iff.
  exists (Z.to_nat (x - lo)). split; [lia|]. apply in_seq. lia.
Qed.

Ltac by_cases_on x lo len :=
  pattern x; apply (zrange_Forall _ lo len); [|lia];
  let l := eval vm_compute in (zrange lo len) in
  change (zrange lo len) with l;
  repeat (apply List.Forall_cons; [cbv beta|]); [..|apply List.Forall_nil].

Lemma ascii_digit_isdecimal v :
  0 <= v <= 9 -> char_isdecimal (48 + v) = true.
Proof.
  intros Hv. unfold char_isdecimal, decimal_ranges. cbn [in_ranges].
  apply orb_true_iff. left. apply andb_true_iff. lia.
Qed.

Lemma ascii_digit_value v :
  0 <= v <= 9 -> decimal_value (48 + v) = Some v.
Proof.
  intros Hv. unfold decimal_value, decimal_ranges. cbn [range_start].
  replace ((48 <=? 48 + v) && (48 + v <=? 57)) with true
    by (symmetry; apply andb_true_iff; lia).
  f_equal. rewrite Z.mod_small; lia.
Qed.

Lemma digits_fixed_2 n :
  digits_fixed 2 n = [48 + (n / 10) mod 10; 48 + n mod 10].
Proof. reflexivity. Qed.

Lemma digits_fixed_4 n :
  digits_fixed 4 n
  = [48 + (n / 10 / 10 / 10) mod 10; 48 + (n / 10 / 10) mod 10;
     48 + (n / 10) mod 10; 48 + n mod 10].
Proof. reflexivity. Qed.

Lemma lstrip_digit v s : 0 <= v <= 9 -> lstrip ((48 + v) :: s) = (48 + v) :: s.
Proof.
  intros Hv. cbn [lstrip].
  replace (48 + v =? 32) with false by (symmetry; apply Z.eqb_neq; lia).
  reflexivity.
Qed.

Lemma int_group_digits_2 n : 0 <= n <= 99 -> int_group (digits_fixed 2 n) = Ok n.
Proof.
  intros Hn. rewrite digits_fixed_2. unfold int_group.
  rewrite lstrip_digit by (Z.div_mod_to_equations; lia).
  unfold PyStr.int. cbn [int_from].
  rewrite !ascii_digit_value by (Z.div_mod_to_equations; lia).
  do 2 f_equal. Z.div_mod_to_equations. lia.
Qed.

Lemma int_group_digits_4 n :
  0 <= n <= 9999 -> int_group (digits_fixed 4 n) = Ok n.
Proof.
  intros Hn. rewrite digits_fixed_4. unfold int_group.
  rewrite lstrip_digit by (Z.div_mod_to_equations; lia).
  unfold PyStr.int. cbn [int_from].
  rewrite !ascii_digit_value by (Z.div_mod_to_equations; lia).
  do 2 f_equal. Z.div_mod_to_equations. lia.
Qed.

Lemma rmatch_re_d {X} d rest caps k (x : X) :
  1 <= d <= 31 ->
  k (digits_fixed 2 d) (set_capture Gd (digits_fixed 2 d) caps) (46 :: rest)
    = Some x ->
  rmatch re_d (digits_fixed 2 d ++ 46 :: rest) caps k = Some x.
Proof.
  intros Hd. revert k x caps rest.
  by_cases_on d 1 31%nat; intros k x caps rest H; cbv in H |- *;
    rewrite H; reflexivity.
Qed.

Lemma rmatch_re_m {X} m rest caps k (x : X) :
  1 <= m <= 12 ->
  k (digits_fixed 2 m) (set_capture Gm (digits_fixed 2 m) caps) (46 :: rest)
    = Some x ->
  rmatch re_m (digits_fixed 2 m ++ 46 :: rest) caps k = Some x.
Proof.
  intros Hd. revert k x caps rest.
  by_cases_on m 1 12%nat; intros k x caps rest H; cbv in H |- *;
    rewrite H; reflexivity.
Qed.

Lemma rmatch_re_Y {X} y caps (k : pystr -> captures -> pystr -> option X) :
  0 <= y <= 9999 ->
  rmatch re_Y (digits_fixed 4 y) caps k
  = k (digits_fixed 4 y) (set_capture GY (digits_fixed 4 y) caps) [].
Proof.
  intros Hy. rewrite digits_fixed_4. unfold re_Y. cbn [rmatch one_char].
  rewrite !ascii_digit_isdecimal by (Z.div_mod_to_equations; lia).
  reflexivity.
Qed.

Lemma re_match_padded d m y :
  1 <= d <= 31 -> 1 <= m <= 12 -> 0 <= y <= 9999 ->
  re_match (digits_fixed 2 d ++ 46 :: digits_fixed 2 m ++ 46 :: digits_fixed 4 y)
  = Some (mkCaptures (digits_fixed 2 d) (digits_fixed 2 m) (digits_fixed 4 y),
          []).
Proof.
  intros Hd Hm Hy. unfold re_match, format_regex.
  change (ch ".") with 46. cbn [rmatch].
  apply rmatch_re_d; [lia|]. cbn [one_char]. rewrite Z.eqb_refl.
  apply rmatch_re_m; [lia|]. cbn [one_char]. rewrite Z.eqb_refl.
  rewrite rmatch_re_Y by lia. reflexivity.
Qed.

Lemma valid_date_bounds d :
  valid_date d = true ->
  1 <= year d <= 9999 /\ 1 <= month d <= 12 /\ 1 <= day d <= 31.
Proof.
  unfold valid_date, valid_ymd, MINYEAR, MAXYEAR.
  rewrite !andb_true_iff, !Z.leb_le. intros (((((H1 & H2) & H3) & H4) & H5) & H6).
  repeat split; try lia.
  rewrite days_in_month_leap in H6.
  assert (_DAYS_IN_MONTH (month d) + (if (month d =? 2) && _is_leap (year d) then 1 else 0) <= 31); [|lia].
  assert (month d = 1 \/ month d = 2 \/ month d = 3 \/ month d = 4
          \/ month d = 5 \/ month d = 6 \/ month d = 7 \/ month d = 8
          \/ month d = 9 \/ month d = 10 \/ month d = 11 \/ month d = 12)
    as Hc by lia.
  repeat (destruct Hc as [-> | Hc]; [destruct (_is_leap _); cbn; lia|]).
  rewrite Hc. destruct (_is_leap _); cbn; lia.
Qed.

Lemma digits_plain_4 y : 1000 <= y <= 9999 -> digits_plain y = digits_fixed 4 y.
Proof.
  intros Hy. unfold digits_plain. f_equal. cbn [ndigits_fuel].
  replace (y <? 10) with false by (symmetry; apply Z.ltb_ge; lia).
  replace (y / 10 <? 10) with false
    by (symmetry; apply Z.ltb_ge; Z.div_mod_to_equations; lia).
  replace (y / 10 / 10 <? 10) with false
    by (symmetry; apply Z.ltb_ge; Z.div_mod_to_equations; lia).
  replace (y / 10 / 10 / 10 <? 10) with true
    by (symmetry; apply Z.ltb_lt; Z.div_mod_to_equations; lia).
  reflexivity.
Qed.

Lemma strptime_padded d :
  valid_date d = true ->
  strptime (digits_fixed 2 (day d) ++ 46 :: digits_fixed 2 (month d)
            ++ 46 :: digits_fixed 4 (year d)) = Ok d.
Proof.
  intros Hv. pose proof (valid_date_bounds d Hv) as (Hy & Hm & Hd).
  unfold strptime. rewrite re_match_padded by lia.
  cbn [cap_d cap_m cap_Y].
  rewrite int_group_digits_4, !int_group_digits_2 by lia.
  cbn [rbind]. unfold date_new. unfold valid_date in Hv. rewrite Hv.
  destruct d; reflexivity.
Qed.

(** A day and a month of one digit each, written without the zero. *)
Lemma rmatch_re_d_one {X} d rest caps k (x : X) :
  1 <= d <= 9 ->
  k [48 + d] (set_capture Gd [48 + d] caps) (46 :: rest) = Some x ->
  rmatch re_d ((48 + d) :: 46 :: rest) caps k = Some x.
Proof.
  intros Hd. revert k x caps rest.
  by_cases_on d 1 9%nat; intros k x caps rest H; cbv in H |- *;
    rewrite H; reflexivity.
Qed.

Lemma rmatch_re_m_one {X} m rest caps k (x : X) :
  1 <= m <= 9 ->
  k [48 + m] (set_capture Gm [48 + m] caps) (46 :: rest) = Some x ->
  rmatch re_m ((48 + m) :: 46 :: rest) caps k = Some x.
Proof.
  intros Hm. revert k x caps rest.
  by_cases_on m 1 9%nat; intros k x caps rest H; cbv in H |- *;
    rewrite H; reflexivity.
Qed.

Lemma int_group_digit v : 0 <= v <= 9 -> int_group [48 + v] = Ok v.
Proof.
  intros Hv. unfold int_group. rewrite lstrip_digit by lia.
  unfold PyStr.int. cbn [int_from].
  rewrite ascii_digit_value by lia; repeat f_equal; lia.
Qed.

Lemma strptime_unpadded y m d :
  valid_ymd y m d = true -> m <= 9 -> d <= 9 ->
  strptime ((48 + d) :: 46 :: (48 + m) :: 46 :: digits_fixed 4 y)
  = Ok (mkDate y m d).
Proof.
  intros Hv Hm9 Hd9.
  pose proof (valid_date_bounds (mkDate y m d) Hv) as (Hy & Hm & Hd).
  cbn [year month day] in *.
  assert (re_match ((48 + d) :: 46 :: (48 + m) :: 46 :: digits_fixed 4 y)
          = Some (mkCaptures [48 + d] [48 + m] (digits_fixed 4 y), [])) as E.
  { unfold re_match, format_regex. change (ch ".") with 46. cbn [rmatch].
    apply rmatch_re_d_one; [lia|]. cbn [one_char]. rewrite Z.eqb_refl.
    apply rmatch_re_m_one; [lia|]. cbn [one_char]. rewrite Z.eqb_refl.
    rewrite rmatch_re_Y by lia. reflexivity. }
  unfold strptime. rewrite E. cbn [cap_d cap_m cap_Y].
  rewrite int_group_digits_4, !int_group_digit by lia.
  cbn [rbind]. apply date_new_valid, Hv.
Qed.

Lemma strptime_strftime l d :
  valid_date d = true ->
  l = PaddedYear \/ 1000 <= year d ->
  strptime (strftime l d) = Ok d.
Proof.
  intros Hv Hl. pose proof (valid_date_bounds d Hv) as (Hy & _).
  assert (fmt_Y l (year d) = digits_fixed 4 (year d)) as E.
  { destruct l; [|reflexivity]. destruct Hl as [?|Hl]; [discriminate|].
    apply digits_plain_4. lia. }
  unfold strftime. rewrite E. apply strptime_padded, Hv.
Qed.

Lemma strptime_valid s d : strptime s = Ok d -> valid_date d = true.
Proof.
  unfold strptime. destruct (re_match s) as [[caps rest]|]; [|discriminate].
  destruct rest; [|discriminate].
  destruct (int_group (cap_Y caps)); [|discriminate].
  destruct (int_group (cap_m caps)); [|discriminate].
  destruct (int_group (cap_d caps)); [|discriminate].
  cbn [rbind]. intros H. apply date_new_ok in H. tauto.
Qed.

Lemma Birthday_init_ok s b :
  Birthday___init__ s = Ok b ->
  exists d, b = mkBirthday (Some d) /\ strptime s = Ok d /\ valid_date d = true.
Proof.
  unfold Birthday___init__. destruct (strptime s) as [d|e] eqn:E.
  - intros [= <-]. exists d. eauto using strptime_valid.
  - destruct e; discriminate.
Qed.

(** C7, as amended: a birthday that was constructed from a string, and
    either has a year of four digits (1000 or later) or is printed by a
    library that pads the year with zeros, is printed by [__str__] as a
    string from which the constructor builds an equal birthday. *)
Theorem Birthday_str_init_roundtrip l s b :
  Birthday___init__ s = Ok b ->
  l = PaddedYear \/ (exists d, birthday_value b = Some d /\ 1000 <= year d) ->
  exists t, Birthday___str__ l b = Ok t
            /\ Birthday___init__ t = Ok b
            /\ Field___eq__ (FBirthday b) (OField (FBirthday b)) = Ok true.
Proof.
  intros Hb Hl. apply Birthday_init_ok in Hb as (d & -> & _ & Hv).
  exists (strftime l d). split; [reflexivity|].
  assert (l = PaddedYear \/ 1000 <= year d) as Hl'.
  { destruct Hl as [?|(d' & [= <-] & ?)]; auto. }
  unfold Birthday___init__. rewrite (strptime_strftime l d Hv Hl').
  split; [reflexivity|].
  unfold Field___eq__. cbn. unfold date_eqb. rewrite !Z.eqb_refl. reflexivity.
Qed.

(** C7, counterexample: with glibc's [%Y] the birthday 01.01.0999 prints as
    ["01.01.999"], which the constructor rejects. *)
Lemma Birthday_str_glibc_short_year :
  let b := mkBirthday (Some (mkDate 999 1 1)) in
  Birthday___init__ (py "01.01.0999") = Ok b
  /\ Birthday___str__ GlibcYear b = Ok (py "01.01.999")
  /\ Birthday___init__ (py "01.01.999")
     = Raise (ValidationError "Invalid date format. Use DD.MM.YYYY").
Proof. vm_compute. auto. Qed.

Lemma Birthday_str_init_roundtrip_witness :
  exists t,
    Birthday___str__ GlibcYear (mkBirthday (Some (mkDate 2024 2 29))) = Ok t
    /\ Birthday___init__ t = Ok (mkBirthday (Some (mkDate 2024 2 29)))
    /\ Field___eq__ (FBirthday (mkBirthday (Some (mkDate 2024 2 29))))
         (OField (FBirthday (mkBirthday (Some (mkDate 2024 2 29))))) = Ok true.
Proof.
  apply (Birthday_str_init_roundtrip GlibcYear (py "29.02.2024")).
  - vm_compute. reflexivity.
  - right. exists (mkDate 2024 2 29). split; [reflexivity | simpl; lia].
Defined.

(** C9: ["5.3.1990"] is not of the zero-padded form, the constructor
    accepts it, and the birthday is that of ["05.03.1990"], 5 March 1990. *)
Theorem Birthday_init_unpadded :
  zero_padded_form (py "5.3.1990") = false
  /\ zero_padded_form (py "05.03.1990") = true
  /\ Birthday___init__ (py "5.3.1990")
     = Ok (mkBirthday (Some (mkDate 1990 3 5)))
  /\ Birthday___init__ (py "5.3.1990") = Birthday___init__ (py "05.03.1990").
Proof. vm_compute. auto. Qed.

(** ** Fields: construction and equality *)

Lemma Phone_init_spec s :
  Phone___init__ s
  = if (len s =? 10) && forallb char_isdigit s
    then Ok (mkPhone s)
    else Raise (ValidationError "Invalid phone number").
Proof.
  unfold Phone___init__, isdigit.
  destruct s as [|c s]; [reflexivity|].
  destruct (forallb char_isdigit (c :: s)), (len (c :: s) =? 10); reflexivity.
Qed.

Lemma Phone_init_ok s p :
  Phone___init__ s = Ok p ->
  p = mkPhone s /\ len s = 10 /\ forallb char_isdigit s = true.
Proof.
  rewrite Phone_init_spec.
  destruct ((len s =? 10) && forallb char_isdigit s) eqn:E; [|discriminate].
  apply andb_true_iff in E as [E1 E2]. apply Z.eqb_eq in E1.
  intros [= <-]. auto.
Qed.

Lemma Phone_init_error s :
  is_ok (Phone___init__ s) = false ->
  Phone___init__ s = Raise (ValidationError "Invalid phone number").
Proof.
  rewrite Phone_init_spec.
  destruct ((len s =? 10) && forallb char_isdigit s); [discriminate|reflexivity].
Qed.

Lemma ascii_digit_isdigit c : char_is_ascii_digit c = true -> char_isdigit c = true.
Proof.
  unfold char_is_ascii_digit, char_isdigit, char_isdecimal, decimal_ranges.
  cbn [in_ranges]. intros ->. reflexivity.
Qed.

Lemma pyval_eqb_refl v : pyval_eqb v v = true.
Proof.
  destruct v as [s|d|]; cbn; [apply bool_decide_eq_true; reflexivity| |reflexivity].
  unfold date_eqb. rewrite !Z.eqb_refl. reflexivity.
Qed.

Lemma Field_eq_refl f : Field___eq__ f (OField f) = Ok true.
Proof.
  unfold Field___eq__. cbn [getattr_value rbind]. rewrite pyval_eqb_refl.
  destruct f; reflexivity.
Qed.

(** Membership in a set of [Phone] objects is decided by [__eq__], which on
    two phones is equality of the records. *)
Lemma Field_eq_phones p q :
  Field___eq__ (FPhone p) (OField (FPhone q)) = Ok (bool_decide (p = q)).
Proof.
  unfold Field___eq__. cbn. destruct p as [s], q as [t]. cbn.
  destruct (decide (s = t)) as [->|Hne].
  - rewrite !bool_decide_eq_true_2; reflexivity.
  - rewrite !bool_decide_eq_false_2; [reflexivity| |assumption]. congruence.
Qed.

(** C3, as amended: the constructor accepts a string exactly when it has
    ten characters and [str.isdigit] holds of each, which covers the ten
    ASCII digits and every other Unicode digit; any other string raises
    ValidationError; an accepted string is the value of the phone, and the
    phone is equal to itself under [__eq__]. *)
Theorem Phone_init_iff s :
  (is_ok (Phone___init__ s) = true
   <-> len s = 10 /\ forallb char_isdigit s = true)
  /\ (is_ok (Phone___init__ s) = false
      -> Phone___init__ s = Raise (ValidationError "Invalid phone number"))
  /\ (len s = 10 /\ forallb char_is_ascii_digit s = true
      -> Phone___init__ s = Ok (mkPhone s))
  /\ (forall p, Phone___init__ s = Ok p ->
        phone_value p = s
        /\ Field___eq__ (FPhone p) (OField (FPhone p)) = Ok true).
Proof.
  split; [|split; [|split]].
  - rewrite Phone_init_spec.
    destruct ((len s =? 10) && forallb char_isdigit s) eqn:E; cbn.
    + apply andb_true_iff in E as [E1 E2]. apply Z.eqb_eq in E1. tauto.
    + apply andb_false_iff in E. rewrite Z.eqb_neq in E.
      split; [discriminate|]. intros [H1 H2]. destruct E; congruence.
  - apply Phone_init_error.
  - intros [Hl Hd]. rewrite Phone_init_spec.
    replace (len s =? 10) with true by (symmetry; apply Z.eqb_eq; exact Hl).
    replace (forallb char_isdigit s) with true; [reflexivity|].
    symmetry. rewrite forallb_forall in *. auto using ascii_digit_isdigit.
  - intros p Hp. apply Phone_init_ok in Hp as (-> & _ & _).
    split; [reflexivity | apply Field_eq_refl].
Qed.

(** C3, counterexample: ten superscript twos (U+00B2) are accepted although
    none of them is a decimal digit. *)
Lemma Phone_init_superscripts :
  let s := repeat 178 10 in
  len s = 10
  /\ Phone___init__ s = Ok (mkPhone s)
  /\ forallb char_isdecimal s = false
  /\ forallb char_is_ascii_digit s = false.
Proof. vm_compute. auto. Qed.

(** C8: comparing a field with an object that has no [value] attribute
    raises AttributeError: [other.value] is read before [isinstance] is
    asked. *)
Theorem Field_eq_no_value f x :
  hasattr_value x = false -> Field___eq__ f x = Raise AttributeError.
Proof. destruct x; [discriminate|reflexivity..]. Qed.

Lemma Field_eq_no_value_witness :
  Field___eq__ (FName (mkName (py "Bob"))) (OStr (py "Bob"))
  = Raise AttributeError.
Proof. apply Field_eq_no_value. reflexivity. Defined.

(** ** Records: the phone operations *)

Lemma add_phone_raises r s r' e :
  add_phone s r = (r', Raise e) ->
  r' = r /\ e = ValidationError "Invalid phone number".
Proof.
  unfold add_phone, mbind_, mlift, phones_add.
  destruct (Phone___init__ s) as [p|e'] eqn:E; [discriminate|].
  intros [= <- <-]. split; [reflexivity|].
  rewrite Phone_init_error in E by (rewrite E; reflexivity). congruence.
Qed.

Lemma remove_phone_raises r s r' e :
  remove_phone s r = (r', Raise e) ->
  r' = r /\ (e = KeyError \/ e = ValidationError "Invalid phone number").
Proof.
  unfold remove_phone, mbind_, mlift, phones_remove.
  destruct (Phone___init__ s) as [p|e'] eqn:E.
  - destruct (decide (p ∈ phones r)); [discriminate|]. intros [= <- <-]. auto.
  - intros [= <- <-]. split; [reflexivity|]. right.
    rewrite Phone_init_error in E by (rewrite E; reflexivity). congruence.
Qed.

Lemma edit_phone_raises r old new r' e :
  edit_phone old new r = (r', Raise e) ->
  r' = r /\ exists msg, e = ValidationError msg.
Proof.
  unfold edit_phone, mbind_, mlift, get_phones, mraise, phones_add,
    phones_remove.
  destruct (Phone___init__ old) as [p|e1] eqn:E1.
  - destruct (bool_decide (p ∈ phones r)) eqn:Ein; cbn [negb].
    + apply bool_decide_eq_true in Ein.
      destruct (Phone___init__ new) as [q|e2] eqn:E2.
      * cbn [phones]. destruct (decide (p ∈ {[q]} ∪ phones r)) as [|Hn];
          [discriminate|]. exfalso. apply Hn, elem_of_union_r, Ein.
      * intros [= <- <-]. split; [reflexivity|].
        rewrite Phone_init_error in E2 by (rewrite E2; reflexivity).
        injection E2 as <-. eauto.
    + intros [= <- <-]. eauto.
  - intros [= <- <-]. split; [reflexivity|].
    rewrite Phone_init_error in E1 by (rewrite E1; reflexivity).
    injection E1 as <-. eauto.
Qed.

(** C10: when [add_phone], [remove_phone] or [edit_phone] raises, the record
    after the call is the record before it, and the exception is a
    ValidationError or the KeyError of a missing member. *)
Theorem phone_ops_atomic r a b r' e :
  add_phone a r = (r', Raise e)
  \/ remove_phone a r = (r', Raise e)
  \/ edit_phone a b r = (r', Raise e) ->
  r' = r /\ (e = KeyError \/ exists msg, e = ValidationError msg).
Proof.
  intros [H|[H|H]].
  - apply add_phone_raises in H as [-> ->]. eauto.
  - apply remove_phone_raises in H as [-> [->| ->]]; eauto.
  - apply edit_phone_raises in H as [-> [msg ->]]. eauto.
Qed.

Lemma phone_ops_atomic_witness :
  bob = bob
  /\ (ValidationError "Invalid phone number" = KeyError
      \/ exists msg, ValidationError "Invalid phone number"
                     = ValidationError msg).
Proof.
  apply (phone_ops_atomic bob (py "12345") (py "0987654321")).
  left. reflexivity.
Defined.

(** C6, as amended: [remove_phone] raises ValidationError on every string
    that is not ten characters of which [str.isdigit] holds, whatever the
    set holds; on a string of ten such characters whose phone is not a
    member it raises KeyError, which is not a ValidationError. *)
Theorem remove_phone_errors r raw :
  (len raw <> 10 \/ forallb char_isdigit raw = false ->
     remove_phone raw r = (r, Raise (ValidationError "Invalid phone number")))
  /\ (len raw = 10 /\ forallb char_isdigit raw = true ->
      mkPhone raw ∉ phones r ->
      remove_phone raw r = (r, Raise KeyError))
  /\ (forall msg, KeyError <> ValidationError msg).
Proof.
  unfold remove_phone, mbind_, mlift, phones_remove.
  rewrite Phone_init_spec. split; [|split].
  - intros H.
    replace ((len raw =? 10) && forallb char_isdigit raw) with false;
      [reflexivity|].
    symmetry. apply andb_false_iff. rewrite Z.eqb_neq. exact H.
  - intros [Hl Hd] Hn. rewrite Hd. apply Z.eqb_eq in Hl. rewrite Hl.
    cbn [andb]. destruct (decide (mkPhone raw ∈ phones r));
      [contradiction|reflexivity].
  - intros msg H. discriminate H.
Qed.

(** C6, counterexample: ten superscript twos (U+00B2) are not ten decimal
    digits, yet removing them from the record of Bob, which does not have
    them, raises KeyError and not ValidationError. *)
Lemma remove_phone_superscripts :
  let raw := repeat 178 10 in
  len raw = 10
  /\ forallb char_isdecimal raw = false
  /\ forallb char_is_ascii_digit raw = false
  /\ mkPhone raw ∉ phones bob
  /\ remove_phone raw bob = (bob, Raise KeyError).
Proof.
  intros raw.
  assert (Hn : mkPhone raw ∉ phones bob).
  { unfold bob. cbn [phones]. intros H. apply elem_of_singleton_1 in H.
    discriminate H. }
  split; [reflexivity|]. split; [reflexivity|]. split; [reflexivity|].
  split; [exact Hn|].
  unfold remove_phone, mbind_, mlift, phones_remove.
  change (Phone___init__ raw) with (Ok (mkPhone raw)).
  destruct (decide (mkPhone raw ∈ phones bob)); [contradiction|reflexivity].
Qed.

(** Editing a member into itself: the insertion changes nothing and the
    removal that follows takes the number out. *)
Lemma edit_phone_same r s p :
  Phone___init__ s = Ok p -> p ∈ phones r ->
  edit_phone s s r
  = (mkRecord (name r) (birthday r) (phones r ∖ {[ p ]}), Ok tt).
Proof.
  intros Hp Hin.
  unfold edit_phone, mbind_, mlift, get_phones, mraise, phones_add,
    phones_remove.
  rewrite Hp, bool_decide_eq_true_2 by assumption.
  cbn [negb phones name birthday].
  destruct (decide (p ∈ {[p]} ∪ phones r)) as [_|Hn].
  - do 2 f_equal. apply set_eq. intros x.
    rewrite !elem_of_difference, elem_of_union, elem_of_singleton. tauto.
  - exfalso. apply Hn, elem_of_union_l, elem_of_singleton. reflexivity.
Qed.

(** C2, on the record of Bob with the one number 1234567890: editing that
    number into itself returns normally and leaves the set empty; the
    number that was a member is gone. *)
Theorem edit_phone_same_removes :
  let s := py "1234567890" in
  mkPhone s ∈ phones bob
  /\ snd (edit_phone s s bob) = Ok tt
  /\ phones (fst (edit_phone s s bob)) = ∅
  /\ mkPhone s ∉ phones (fst (edit_phone s s bob)).
Proof.
  intros s.
  assert (Hin : mkPhone s ∈ phones bob)
    by (unfold bob; cbn [phones]; apply elem_of_singleton_2; reflexivity).
  rewrite (edit_phone_same bob s (mkPhone s) eq_refl Hin).
  cbn [fst snd phones bob]. rewrite difference_diag_L.
  split; [exact Hin|]. split; [reflexivity|]. split; [reflexivity|].
  apply not_elem_of_empty.
Qed.

(** ** The address book: upcoming birthdays *)

Lemma in_window_iff today days_ahead d :
  in_window today days_ahead d = true
  <-> 0 <= sub_days d today < days_ahead.
Proof. unfold in_window. rewrite andb_true_iff, Z.leb_le, Z.ltb_lt. tauto. Qed.

Lemma in_window_bounds today days_ahead d :
  (sub_days d today = 0 -> 0 < days_ahead ->
     in_window today days_ahead d = true)
  /\ (sub_days d today = days_ahead -> in_window today days_ahead d = false).
Proof.
  split.
  - intros H0 Hn. apply in_window_iff. lia.
  - intros H. apply not_true_is_false. rewrite in_window_iff. lia.
Qed.

Lemma upcoming_loop_scheduled today days_ahead records acc :
  all_scheduled today records ->
  upcoming_loop today days_ahead records acc
  = Ok (acc ++ flat_map (entry_of today days_ahead) records).
Proof.
  intros H. revert acc.
  induction H as [|record rest Hr _ IH]; intros acc; cbn [upcoming_loop flat_map].
  - rewrite app_nil_r. reflexivity.
  - unfold entry_of at 1. destruct (birthday record) as [b|]; [|apply IH].
    destruct (Hr b eq_refl) as [d ->]. cbn [rbind].
    destruct (in_window today days_ahead d); rewrite IH.
    + rewrite <- app_assoc. reflexivity.
    + reflexivity.
Qed.

Lemma upcoming_loop_raises today days_ahead records acc record b e :
  In record records -> birthday record = Some b ->
  next_congritulation_date today b = Raise e ->
  exists e', upcoming_loop today days_ahead records acc = Raise e'.
Proof.
  intros Hin Hb He. revert acc.
  induction records as [|r rest IH]; intros acc; [destruct Hin|].
  cbn [upcoming_loop]. destruct Hin as [<-|Hin].
  - rewrite Hb, He. cbn. eauto.
  - destruct (birthday r) as [b'|]; [|apply IH, Hin].
    destruct (next_congritulation_date today b') as [[d|]|e'']; cbn [rbind];
      eauto.
    destruct (in_window today days_ahead d); apply IH, Hin.
Qed.

(** Where every record is scheduled, the list holds, in the order of the
    book, the records whose celebration lies in the window. *)
Lemma get_upcoming_birthdays_window today days_ahead book :
  all_scheduled today (values book) ->
  get_upcoming_birthdays today days_ahead book
  = Ok (flat_map (entry_of today days_ahead) (values book)).
Proof. intros H. apply (upcoming_loop_scheduled _ _ _ [] H). Qed.

(** Read on Monday 11 March 2024 with a window of 7 days: the birthday of
    the day itself is listed, the one of Monday 18 March is not. *)
Lemma get_upcoming_birthdays_boundaries :
  let r0 := mkRecord (mkName (py "Zero")) (Some (mkBirthday (Some (mkDate 1990 3 11)))) ∅ in
  let r7 := mkRecord (mkName (py "Seven")) (Some (mkBirthday (Some (mkDate 1985 3 18)))) ∅ in
  get_upcoming_birthdays (mkDate 2024 3 11) 7 (add_record r7 (add_record r0 []))
  = Ok [mkUpcoming (mkName (py "Zero")) (mkDate 2024 3 11)].
Proof. reflexivity. Qed.

(** C4, on a book whose one record has a 29 February birthday, read on
    1 March 2024 with a window of 7 days: the query raises ValueError where
    the list of the records in the window, here the empty list, is due. *)
Theorem get_upcoming_birthdays_feb29_raises :
  let book := add_record ann [] in
  find (py "Ann") book = Some ann
  /\ get_upcoming_birthdays (mkDate 2024 3 1) 7 book = Raise ValueError.
Proof. intros book. split; reflexivity. Qed.

(** * Further properties *)

(** ** The calendar: order of dates *)

Lemma days_before_year_succ y :
  _days_before_year (y + 1)
  = _days_before_year y + 365 + (if _is_leap y then 1 else 0).
Proof.
  destruct (year_split y) as (a & b & c & e & -> & Hb & Hc & He).
  rewrite is_leap_split, days_before_year_split by lia.
  unfold _days_before_year. cbv zeta.
  replace (400 * a + 100 * b + 4 * c + e + 1 + 1 - 1)
    with (400 * a + 100 * b + 4 * c + e + 1) by lia.
  destruct ((e =? 3) && (negb (c =? 24) || (b =? 3))) eqn:E.
  - apply andb_true_iff in E as [E1 E2]. apply Z.eqb_eq in E1.
    apply orb_true_iff in E2. rewrite negb_true_iff, Z.eqb_neq, Z.eqb_eq in E2.
    Z.div_mod_to_equations. lia.
  - apply andb_false_iff in E.
    rewrite orb_false_iff, negb_false_iff, Z.eqb_neq, Z.eqb_eq, Z.eqb_neq in E.
    Z.div_mod_to_equations. lia.
Qed.

Lemma days_before_year_mono y1 y2 :
  y1 <= y2 -> _days_before_year y1 <= _days_before_year y2.
Proof.
  intros H. unfold _days_before_year. cbv zeta.
  Z.div_mod_to_equations. lia.
Qed.

Lemma day_of_year_bounds y m d :
  valid_ymd y m d = true ->
  1 <= _days_before_month y m + d <= 365 + (if _is_leap y then 1 else 0).
Proof.
  unfold valid_ymd. rewrite !andb_true_iff, !Z.leb_le.
  intros (((((_ & _) & Hm1) & Hm2) & Hd1) & Hd2).
  rewrite days_in_month_leap in Hd2.
  pose proof (inverse_ok_all (_is_leap y) m d ltac:(lia) Hd1) as H.
  unfold inverse_ok in H. apply Z.leb_le in Hd2. rewrite Hd2 in H.
  cbv zeta in H. rewrite !andb_true_iff, Z.leb_le, Z.ltb_lt in H.
  unfold _days_before_month. lia.
Qed.

Lemma months_ordered_all (leap : bool) m1 m2 :
  1 <= m1 <= 12 -> 1 <= m2 <= 12 -> months_ordered leap m1 m2 = true.
Proof.
  intros H1 H2.
  assert (forallb (fun a => forallb (months_ordered leap a) (zrange 1 12))
            (zrange 1 12) = true) as H
    by (destruct leap; vm_compute; reflexivity).
  pose proof (zrange_forallb _ 1 12 H m1 ltac:(lia)) as H'. cbv beta in H'.
  apply (zrange_forallb _ 1 12 H' m2). lia.
Qed.

(** Dates in calendar order have ordinals in the same order. *)
Lemma toordinal_mono a b :
  valid_date a = true -> valid_date b = true ->
  date_ltb a b = false -> toordinal b <= toordinal a.
Proof.
  intros Ha Hb Hlt.
  pose proof (day_of_year_bounds _ _ _ Ha) as Da.
  pose proof (day_of_year_bounds _ _ _ Hb) as Db.
  pose proof (valid_date_bounds _ Ha) as (Hya & Hma & Hda).
  pose proof (valid_date_bounds _ Hb) as (Hyb & Hmb & Hdb).
  unfold date_ltb in Hlt.
  rewrite !orb_false_iff, !andb_false_iff, !orb_false_iff, !andb_false_iff,
    !Z.ltb_ge, !Z.eqb_neq in Hlt.
  unfold toordinal, _ymd2ord.
  destruct (Z.eq_dec (year a) (year b)) as [Ey|Ny].
  - rewrite Ey in *.
    destruct (Z.eq_dec (month a) (month b)) as [Em|Nm].
    + rewrite Em in *. lia.
    + assert (month b < month a) as Hm by lia.
      pose proof (months_ordered_all (_is_leap (year b)) (month b) (month a)
                    Hmb Hma) as Ho.
      unfold months_ordered in Ho. apply Z.ltb_lt in Hm. rewrite Hm in Ho.
      apply Z.leb_le in Ho.
      unfold valid_date, valid_ymd in Hb.
      rewrite !andb_true_iff, !Z.leb_le, days_in_month_leap in Hb.
      unfold _days_before_month. lia.
  - assert (year b + 1 <= year a) as Hy by lia.
    pose proof (days_before_year_mono _ _ Hy) as Hmono.
    rewrite days_before_year_succ in Hmono. lia.
Qed.

Lemma weekend_shift_ordinal c d :
  weekend_shift c = Ok d -> toordinal c <= toordinal d <= toordinal c + 2.
Proof.
  unfold weekend_shift.
  destruct (weekday c =? 5); [|destruct (weekday c =? 6)].
  - intros H. apply add_days_ok in H as [H _]. lia.
  - intros H. apply add_days_ok in H as [H _]. lia.
  - intros [= <-]. lia.
Qed.

(** ** Scheduling: when and where the date falls *)

Lemma next_congritulation_date_steps today b v :
  birthday_value b = Some v ->
  next_congritulation_date today b
  = (if valid_date (candidate today v) && valid_date (rolled today v)
     then rbind (weekend_shift (rolled today v)) (fun d => Ok (Some d))
     else Raise ValueError).
Proof.
  intros Ev. unfold next_congritulation_date, rolled.
  assert (is_29th_february b = is_feb29 v) as ->
    by (unfold is_29th_february; rewrite Ev; reflexivity).
  rewrite Ev.
  unfold replace_year_day, replace_year, date_new, candidate, valid_date.
  cbn [year month day].
  destruct (is_feb29 v && negb (is_leap_year (year today)));
    (destruct (valid_ymd (year today) (month v) _) eqn:E1;
     cbn [rbind andb]; [|reflexivity]);
    cbn [year month day];
    (destruct (date_ltb _ today); cbn [year month day];
     [destruct (is_feb29 v && is_leap_year (year today + 1));
      (destruct (valid_ymd (year today + 1) (month v) _) eqn:E2;
       cbn [rbind]; reflexivity)
     | rewrite E1; reflexivity]).
Qed.

Lemma next_congritulation_date_inv today b d :
  next_congritulation_date today b = Ok (Some d) ->
  exists v, birthday_value b = Some v
            /\ valid_date (candidate today v) = true
            /\ valid_date (rolled today v) = true
            /\ weekend_shift (rolled today v) = Ok d.
Proof.
  intros H. destruct (birthday_value b) as [v|] eqn:Ev.
  - rewrite (next_congritulation_date_steps today b v Ev) in H.
    exists v. split; [reflexivity|].
    destruct (valid_date (candidate today v)); [|discriminate].
    destruct (valid_date (rolled today v)); [|discriminate].
    cbn [andb] in H.
    destruct (weekend_shift (rolled today v)) as [d'|]; [|discriminate].
    cbn [rbind] in H. injection H as <-. auto.
  - unfold next_congritulation_date in H. rewrite Ev in H. discriminate.
Qed.

Lemma toordinal_lt a b :
  valid_date a = true -> valid_date b = true ->
  date_ltb a b = true -> toordinal a < toordinal b.
Proof.
  intros Ha Hb Hlt.
  assert (date_ltb b a = false) as Hba.
  { unfold date_ltb in *.
    rewrite !orb_true_iff, !andb_true_iff, !orb_true_iff, !andb_true_iff,
      !Z.ltb_lt, !Z.eqb_eq in Hlt.
    rewrite !orb_false_iff, !andb_false_iff, !orb_false_iff, !andb_false_iff,
      !Z.ltb_ge, !Z.eqb_neq. lia. }
  pose proof (toordinal_mono b a Hb Ha Hba) as Hle.
  destruct (Z.eq_dec (toordinal a) (toordinal b)) as [E|]; [|lia].
  exfalso.
  destruct (ymd2ord_ord2ymd a Ha) as [Ra _].
  destruct (ymd2ord_ord2ymd b Hb) as [Rb _].
  rewrite E, Rb in Ra. subst b.
  unfold date_ltb in Hlt.
  rewrite !orb_true_iff, !andb_true_iff, !orb_true_iff, !andb_true_iff,
    !Z.ltb_lt, !Z.eqb_eq in Hlt. lia.
Qed.

Lemma leap_not_consecutive y : _is_leap y = true -> _is_leap (y + 1) = false.
Proof.
  intros H. apply is_leap_spec in H. apply not_true_is_false.
  rewrite is_leap_spec. Z.div_mod_to_equations. lia.
Qed.

(** The rolled candidate is at most 365 days after today and not before. *)
Lemma rolled_window today v :
  valid_date today = true ->
  valid_date (candidate today v) = true ->
  valid_date (rolled today v) = true ->
  0 <= toordinal (rolled today v) - toordinal today <= 365.
Proof.
  intros Ht Hc Hr.
  pose proof (day_of_year_bounds _ _ _ Ht) as Dt.
  pose proof (day_of_year_bounds _ _ _ Hc) as Dc.
  pose proof (day_of_year_bounds _ _ _ Hr) as Dr.
  unfold rolled in *. destruct (date_ltb (candidate today v) today) eqn:Elt.
  - pose proof (toordinal_lt _ _ Hc Ht Elt) as Hlt.
    unfold toordinal, _ymd2ord, candidate in *. cbn [year month day] in *.
    change is_leap_year with _is_leap in *.
    rewrite days_before_year_succ in *.
    unfold _days_before_month in *.
    pose proof (leap_not_consecutive (year today)) as Hnc.
    destruct (is_feb29 v) eqn:E29.
    + apply andb_true_iff in E29 as [Em Ed].
      apply Z.eqb_eq in Em, Ed. rewrite Em, Ed in *.
      change (2 <? 2) with false in *.
      change (_DAYS_BEFORE_MONTH 2) with 31 in *.
      destruct (_is_leap (year today)), (_is_leap (year today + 1));
        cbn [andb negb] in *; lia.
    + destruct (_is_leap (year today)), (_is_leap (year today + 1)),
        (2 <? month v); cbn [andb negb] in *;
        try discriminate (Hnc eq_refl); lia.
  - pose proof (toordinal_mono _ _ Hc Ht Elt) as Hle.
    unfold toordinal, _ymd2ord in *. cbn [candidate year month day] in *.
    destruct (_is_leap (year today)); lia.
Qed.

(** X1: Whenever the schedule returns a date for a valid current date, that
    date is not before today and at most 367 days after it. *)
Theorem next_congritulation_date_window today b d :
  valid_date today = true ->
  next_congritulation_date today b = Ok (Some d) ->
  0 <= sub_days d today <= 367.
Proof.
  intros Ht H. apply next_congritulation_date_inv in H as (v & _ & Hc & Hr & Hs).
  pose proof (rolled_window today v Ht Hc Hr).
  apply weekend_shift_ordinal in Hs. unfold sub_days. lia.
Qed.

Lemma valid_ymd_intro y m d :
  1 <= y <= 9999 -> 1 <= m <= 12 ->
  1 <= d <= _DAYS_IN_MONTH m + (if (m =? 2) && _is_leap y then 1 else 0) ->
  valid_ymd y m d = true.
Proof.
  intros Hy Hm Hd. unfold valid_ymd, MINYEAR, MAXYEAR.
  rewrite days_in_month_leap.
  repeat (apply andb_true_iff; split); lia.
Qed.

Lemma valid_ymd_elim y m d :
  valid_ymd y m d = true ->
  1 <= y <= 9999 /\ 1 <= m <= 12
  /\ 1 <= d <= _DAYS_IN_MONTH m + (if (m =? 2) && _is_leap y then 1 else 0).
Proof.
  unfold valid_ymd, MINYEAR, MAXYEAR. rewrite days_in_month_leap.
  rewrite !andb_true_iff, !Z.leb_le. lia.
Qed.

(** A day that is not 29 February exists in every year. *)
Lemma valid_ymd_other_year y y' m d :
  valid_ymd y m d = true -> (m =? 2) && (d =? 29) = false ->
  1 <= y' <= 9999 -> valid_ymd y' m d = true.
Proof.
  intros Hv Hn Hy'. apply valid_ymd_elim in Hv as (Hy & Hm & Hd).
  apply valid_ymd_intro; [lia..|].
  destruct (m =? 2) eqn:Em.
  - apply Z.eqb_eq in Em. subst m. cbn [andb] in *. apply Z.eqb_neq in Hn.
    change (_DAYS_IN_MONTH 2) with 28 in *.
    destruct (_is_leap y), (_is_leap y'); lia.
  - cbn [andb] in *. lia.
Qed.

Lemma feb29_valid y : 1 <= y <= 9999 -> _is_leap y = true -> valid_ymd y 2 29 = true.
Proof.
  intros Hy Hl. apply valid_ymd_intro; [lia..|]. rewrite Hl. cbn. lia.
Qed.

Lemma feb29_invalid y : _is_leap y = false -> valid_ymd y 2 29 = false.
Proof.
  intros Hl. apply not_true_is_false. intros H.
  apply valid_ymd_elim in H as (_ & _ & H). rewrite Hl in H. cbn in H. lia.
Qed.

Lemma weekend_shift_ok c :
  valid_date c = true -> year c <= 9998 -> exists d, weekend_shift c = Ok d.
Proof.
  intros Hv Hy.
  pose proof (day_of_year_bounds _ _ _ Hv) as D.
  pose proof (valid_date_bounds _ Hv) as (Hyr & _ & _).
  assert (toordinal c + 2 <= _MAXORDINAL /\ 1 <= toordinal c) as [Hmax Hmin].
  { unfold toordinal, _ymd2ord.
    pose proof (days_before_year_mono (year c + 1) 9999 ltac:(lia)) as M.
    rewrite days_before_year_succ in M.
    change (_days_before_year 9999) with 3651694 in M.
    pose proof (days_before_year_mono 1 (year c) ltac:(lia)) as M1.
    change (_days_before_year 1) with 0 in M1.
    unfold _MAXORDINAL. lia. }
  assert (forall k, 0 <= k <= 2 -> exists d, add_days c k = Ok d) as Hadd.
  { intros k Hk. unfold add_days.
    replace ((0 <? toordinal c + k) && (toordinal c + k <=? _MAXORDINAL))
      with true by (symmetry; apply andb_true_iff; rewrite Z.ltb_lt, Z.leb_le; lia).
    eauto. }
  unfold weekend_shift.
  destruct (weekday c =? 5); [apply Hadd; lia|].
  destruct (weekday c =? 6); [apply Hadd; lia|]. eauto.
Qed.

Lemma next_congritulation_date_cases today b v :
  valid_date today = true -> year today <= 9997 ->
  birthday_value b = Some v -> valid_date v = true ->
  if is_29th_february b && is_leap_year (year today)
     && date_ltb (mkDate (year today) 2 29) today
  then next_congritulation_date today b = Raise ValueError
  else exists d, next_congritulation_date today b = Ok (Some d).
Proof.
  intros Ht Hy Ev Hv.
  pose proof (valid_date_bounds _ Ht) as (Hyt & _ & _).
  assert (is_29th_february b = is_feb29 v) as E29
    by (unfold is_29th_february; rewrite Ev; reflexivity).
  destruct (is_29th_february b && is_leap_year (year today)
            && date_ltb (mkDate (year today) 2 29) today) eqn:E.
  - apply andb_true_iff in E as [E E3]. apply andb_true_iff in E as [E1 E2].
    apply feb29_rollover_leap_year_raises; assumption.
  - rewrite (next_congritulation_date_steps today b v Ev).
    rewrite E29 in E. change is_leap_year with _is_leap in E.
    assert (Hc : valid_date (candidate today v) = true).
    { unfold candidate, valid_date. cbn [year month day].
      change is_leap_year with _is_leap.
      destruct (is_feb29 v) eqn:F.
      - apply andb_true_iff in F as [Fm Fd]. apply Z.eqb_eq in Fm, Fd.
        rewrite Fm. destruct (_is_leap (year today)) eqn:L; cbn [andb negb].
        + rewrite Fd. apply feb29_valid; [lia|assumption].
        + apply feb28_valid. lia.
      - cbn [andb]. apply (valid_ymd_other_year (year v)); [exact Hv|exact F|lia]. }
    assert (Hr : valid_date (rolled today v) = true /\ year (rolled today v) <= 9998).
    { unfold rolled. destruct (date_ltb (candidate today v) today) eqn:Elt.
      - unfold valid_date. cbn [year month day]. split; [|lia].
        change is_leap_year with _is_leap.
        destruct (is_feb29 v) eqn:F.
        + pose proof F as F'.
          apply andb_true_iff in F as [Fm Fd]. apply Z.eqb_eq in Fm, Fd.
          rewrite Fm.
          destruct (_is_leap (year today + 1)) eqn:L1; cbn [andb].
          * apply feb29_valid; [lia|assumption].
          * unfold candidate. cbn [day]. rewrite F'.
            change is_leap_year with _is_leap.
            destruct (_is_leap (year today)) eqn:L; cbn [andb negb].
            -- exfalso. cbn [andb] in E.
               unfold candidate in Elt. rewrite F' in Elt.
               change is_leap_year with _is_leap in Elt.
               rewrite L, Fm, Fd in Elt. cbn [andb negb] in Elt.
               rewrite Elt in E. discriminate.
            -- apply feb28_valid. lia.
        + cbn [andb]. unfold candidate. cbn [day]. rewrite F. cbn [andb].
          apply (valid_ymd_other_year (year v)); [exact Hv|exact F|lia].
      - split; [exact Hc|]. unfold candidate. cbn [year]. lia. }
    destruct Hr as [Hr Hyr]. rewrite Hc, Hr. cbn [andb].
    destruct (weekend_shift_ok _ Hr Hyr) as [d ->]. cbn [rbind]. eauto.
Qed.

(** X2: When the schedule is computed: for a valid birthday and a valid current
    date up to the year 9997, the function raises exactly in the rollover of
    a 29 February kept in a leap year, and returns a date otherwise. *)
Theorem next_congritulation_date_defined today b v :
  valid_date today = true -> year today <= 9997 ->
  birthday_value b = Some v -> valid_date v = true ->
  if is_29th_february b && is_leap_year (year today)
     && date_ltb (mkDate (year today) 2 29) today
  then next_congritulation_date today b = Raise ValueError
  else exists d, next_congritulation_date today b = Ok (Some d).
Proof. apply next_congritulation_date_cases. Qed.

Lemma weekend_shift_cases c d :
  weekend_shift c = Ok d -> d = c \/ weekday d = 0.
Proof.
  unfold weekend_shift.
  destruct (weekday c =? 5) eqn:E5; [|destruct (weekday c =? 6) eqn:E6].
  - apply Z.eqb_eq in E5. intros H. apply add_days_ok in H as [H _].
    right. unfold weekday in *. rewrite H. Z.div_mod_to_equations. lia.
  - apply Z.eqb_eq in E6. intros H. apply add_days_ok in H as [H _].
    right. unfold weekday in *. rewrite H. Z.div_mod_to_equations. lia.
  - intros [= <-]. left. reflexivity.
Qed.

(** X3: For a birthday other than 29 February, the date returned has the
    month and the day of the birthday, in the current year or the next,
    unless the weekend shift moved it, and then it is a Monday. *)
Theorem next_congritulation_date_day today b v d :
  birthday_value b = Some v ->
  is_29th_february b = false ->
  next_congritulation_date today b = Ok (Some d) ->
  (month d = month v /\ day d = day v
   /\ (year d = year today \/ year d = year today + 1))
  \/ weekday d = 0.
Proof.
  intros Ev E29 H.
  apply next_congritulation_date_inv in H as (v' & Ev' & _ & _ & Hs).
  rewrite Ev in Ev'. injection Ev' as <-.
  assert (is_feb29 v = false) as F
    by (unfold is_29th_february in E29; rewrite Ev in E29; exact E29).
  apply weekend_shift_cases in Hs as [-> | Hs]; [left|right; exact Hs].
  unfold rolled, candidate. rewrite F. cbn [andb].
  destruct (date_ltb _ today); cbn [year month day]; auto.
Qed.

(** ** Records: how the phone operations compose *)

Lemma record_eta r : mkRecord (name r) (birthday r) (phones r) = r.
Proof. destruct r. reflexivity. Qed.

Lemma add_phone_ok r s p :
  Phone___init__ s = Ok p ->
  add_phone s r = (mkRecord (name r) (birthday r) ({[ p ]} ∪ phones r), Ok tt).
Proof.
  intros Hp. unfold add_phone, mbind_, mlift, phones_add. rewrite Hp.
  reflexivity.
Qed.

Lemma remove_phone_ok r s p :
  Phone___init__ s = Ok p -> p ∈ phones r ->
  remove_phone s r
  = (mkRecord (name r) (birthday r) (phones r ∖ {[ p ]}), Ok tt).
Proof.
  intros Hp Hin. unfold remove_phone, mbind_, mlift, phones_remove.
  rewrite Hp. destruct (decide (p ∈ phones r)); [reflexivity|contradiction].
Qed.

Lemma Phone_init_value s p : Phone___init__ s = Ok p -> p = mkPhone s.
Proof. intros H. apply Phone_init_ok in H. tauto. Qed.

(** X5: Adding a number that the record does not have and removing it again
    gives back the record. *)
Theorem add_remove_phone r s :
  is_ok (Phone___init__ s) = true -> mkPhone s ∉ phones r ->
  let r1 := fst (add_phone s r) in
  snd (add_phone s r) = Ok tt
  /\ mkPhone s ∈ phones r1
  /\ remove_phone s r1 = (r, Ok tt).
Proof.
  intros Hok Hn.
  destruct (Phone___init__ s) as [p|] eqn:Hp; [|discriminate].
  pose proof (Phone_init_value s p Hp) as ->.
  rewrite (add_phone_ok r s _ Hp). cbn [fst snd].
  split; [reflexivity|]. split.
  - cbn [phones]. apply elem_of_union_l, elem_of_singleton_2. reflexivity.
  - rewrite (remove_phone_ok _ s _ Hp)
      by (cbn [phones]; apply elem_of_union_l, elem_of_singleton_2; reflexivity).
    cbn [name birthday phones]. f_equal.
    rewrite <- (record_eta r) at 4. f_equal.
    apply set_eq. intros x.
    rewrite elem_of_difference, elem_of_union, elem_of_singleton.
    split; [tauto|]. intros Hx. split; [tauto|]. intros ->. contradiction.
Qed.

(** X6: Adding the same number twice is adding it once. *)
Theorem add_phone_idempotent r s :
  add_phone s (fst (add_phone s r)) = add_phone s r.
Proof.
  unfold add_phone, mbind_, mlift, phones_add.
  destruct (Phone___init__ s) as [p|e]; cbn [fst]; [|reflexivity].
  cbn [name birthday phones]. do 2 f_equal.
  apply set_eq. intros x. rewrite !elem_of_union. tauto.
Qed.

(** X7: Editing a number of the record into a different valid number: the new
    number is in, the old one is out, every other number stays. *)
Theorem edit_phone_replaces r old new :
  is_ok (Phone___init__ old) = true -> is_ok (Phone___init__ new) = true ->
  mkPhone old ∈ phones r -> old <> new ->
  exists r', edit_phone old new r = (r', Ok tt)
    /\ name r' = name r /\ birthday r' = birthday r
    /\ forall q, q ∈ phones r'
                 <-> q = mkPhone new \/ (q ∈ phones r /\ q <> mkPhone old).
Proof.
  intros Ho Hn Hin Hne.
  destruct (Phone___init__ old) as [p|] eqn:Hp; [|discriminate].
  destruct (Phone___init__ new) as [q|] eqn:Hq; [|discriminate].
  pose proof (Phone_init_value _ _ Hp) as ->.
  pose proof (Phone_init_value _ _ Hq) as ->.
  unfold edit_phone, mbind_, mlift, get_phones, mraise, phones_add,
    phones_remove.
  rewrite Hp, Hq, bool_decide_eq_true_2 by assumption.
  cbn [negb phones name birthday].
  destruct (decide (mkPhone old ∈ {[mkPhone new]} ∪ phones r)) as [_|Hx];
    [|exfalso; apply Hx, elem_of_union_r, Hin].
  eexists. split; [reflexivity|]. cbn [name birthday phones].
  split; [reflexivity|]. split; [reflexivity|].
  intros x. rewrite elem_of_difference, elem_of_union, !elem_of_singleton.
  split.
  - intros [[->|Hx] Hd]; [left; reflexivity|right; auto].
  - intros [->|[Hx Hd]]; [|tauto]. split; [left; reflexivity|].
    intros [= E]. congruence.
Qed.

Lemma phones_valid_add r p :
  is_ok (Phone___init__ (phone_value p)) = true ->
  phones_valid r ->
  phones_valid (mkRecord (name r) (birthday r) ({[ p ]} ∪ phones r)).
Proof.
  intros Hp Hr q. cbn [phones]. rewrite elem_of_union, elem_of_singleton.
  intros [->|Hq]; auto.
Qed.

Lemma phones_valid_remove r p :
  phones_valid r ->
  phones_valid (mkRecord (name r) (birthday r) (phones r ∖ {[ p ]})).
Proof.
  intros Hr q. cbn [phones]. rewrite elem_of_difference. intros [Hq _]. auto.
Qed.

Lemma Phone_init_ok_valid s p :
  Phone___init__ s = Ok p -> is_ok (Phone___init__ (phone_value p)) = true.
Proof.
  intros H. pose proof (Phone_init_value _ _ H) as ->. cbn. rewrite H.
  reflexivity.
Qed.

(** X8: The phone operations and [add_birthday] keep the set free of numbers
    that [Phone.__init__] would reject, whether they return or raise. *)
Theorem phones_valid_preserved r a b :
  phones_valid r ->
  phones_valid (fst (add_phone a r))
  /\ phones_valid (fst (remove_phone a r))
  /\ phones_valid (fst (edit_phone a b r))
  /\ phones_valid (fst (add_birthday a r)).
Proof.
  intros Hr. repeat split.
  - unfold add_phone, mbind_, mlift, phones_add.
    destruct (Phone___init__ a) as [p|] eqn:Hp; cbn [fst]; [|exact Hr].
    apply phones_valid_add; eauto using Phone_init_ok_valid.
  - unfold remove_phone, mbind_, mlift, phones_remove.
    destruct (Phone___init__ a) as [p|] eqn:Hp; cbn [fst]; [|exact Hr].
    destruct (decide (p ∈ phones r)); cbn [fst]; [|exact Hr].
    apply phones_valid_remove, Hr.
  - unfold edit_phone, mbind_, mlift, get_phones, mraise, phones_add,
      phones_remove.
    destruct (Phone___init__ a) as [p|] eqn:Hp; cbn [fst]; [|exact Hr].
    destruct (bool_decide (p ∈ phones r)); cbn [negb fst]; [|exact Hr].
    destruct (Phone___init__ b) as [q|] eqn:Hq; cbn [fst]; [|exact Hr].
    cbn [phones].
    destruct (decide (p ∈ {[q]} ∪ phones r)); cbn [fst].
    + intros x. cbn [phones].
      rewrite elem_of_difference, elem_of_union, elem_of_singleton.
      intros [[->|Hx] _]; eauto using Phone_init_ok_valid.
    + apply phones_valid_add; eauto using Phone_init_ok_valid.
  - unfold add_birthday, mbind_, mlift.
    destruct (Birthday___init__ a); cbn [fst]; exact Hr.
Qed.

Lemma find_phone_member r s :
  (forall p, find_phone s r = Some p <-> p = mkPhone s /\ p ∈ phones r)
  /\ (phones_valid r -> is_ok (Phone___init__ s) = false ->
      find_phone s r = None).
Proof.
  unfold find_phone. split.
  - intros p. destruct (decide (mkPhone s ∈ phones r)) as [Hin|Hn].
    + split; [intros [= <-]; auto | intros [-> _]; reflexivity].
    + split; [discriminate | intros [-> H]; contradiction].
  - intros Hv Hbad. destruct (decide (mkPhone s ∈ phones r)) as [Hin|Hn];
      [|reflexivity].
    apply Hv in Hin. cbn [phone_value] in Hin. congruence.
Qed.

(** X9: In whatever order the set hands out its phones, the loop of
    [find_phone] returns the phone whose value is the string when the
    record has it and None otherwise; on a record whose numbers are all
    valid, a string that [Phone.__init__] would reject is simply not
    found. *)
Theorem find_phone_any_order r s order :
  (forall p, In p order <-> p ∈ phones r) ->
  find_phone_loop s order
  = (if decide (mkPhone s ∈ phones r) then Some (mkPhone s) else None)
  /\ (phones_valid r -> is_ok (Phone___init__ s) = false ->
      find_phone_loop s order = None).
Proof.
  intros Hord.
  assert (find_phone_loop s order = find_phone s r) as E.
  { unfold find_phone_loop, find_phone.
    destruct (List.find _ order) as [x|] eqn:Ef.
    - apply find_some in Ef as [Hin Hx]. apply bool_decide_eq_true in Hx.
      assert (x = mkPhone s) as -> by (destruct x; cbn in Hx; congruence).
      rewrite decide_True by (apply Hord, Hin). reflexivity.
    - destruct (decide (mkPhone s ∈ phones r)) as [Hin|]; [|reflexivity].
      apply Hord in Hin. apply (find_none _ _ Ef) in Hin.
      cbn [phone_value] in Hin.
      rewrite bool_decide_eq_true_2 in Hin by reflexivity. discriminate. }
  rewrite E. split; [reflexivity|]. apply find_phone_member.
Qed.

Lemma add_birthday_cases r s :
  match strptime s with
  | Ok d =>
      add_birthday s r
      = (mkRecord (name r) (Some (mkBirthday (Some d))) (phones r), Ok tt)
  | Raise _ =>
      add_birthday s r
      = (r, Raise (ValidationError "Invalid date format. Use DD.MM.YYYY"))
  end.
Proof.
  unfold add_birthday, mbind_, mlift, Birthday___init__.
  destruct (strptime s) as [d|e] eqn:E; [reflexivity|].
  assert (e = ValueError) as ->; [|reflexivity].
  unfold strptime in E.
  destruct (re_match s) as [[caps rest]|]; [|congruence].
  destruct rest; [|congruence].
  unfold int_group, date_new in E.
  repeat match type of E with
         | context [match ?x with _ => _ end] => destruct x; cbn [rbind] in E
         | context [if ?x then _ else _] => destruct x
         end; congruence.
Qed.

(** X10: [add_birthday] replaces the birthday by the parsed date and touches
    nothing else; on a string that does not parse it raises ValidationError
    (never ValueError) and the record is unchanged. *)
Theorem add_birthday_spec r s :
  match strptime s with
  | Ok d =>
      add_birthday s r
      = (mkRecord (name r) (Some (mkBirthday (Some d))) (phones r), Ok tt)
  | Raise _ =>
      add_birthday s r
      = (r, Raise (ValidationError "Invalid date format. Use DD.MM.YYYY"))
  end.
Proof. apply add_birthday_cases. Qed.

(** ** The address book as a dictionary *)

Lemma dict_get_set_eq k v d : dict_get k (dict_set k v d) = Some v.
Proof.
  induction d as [|[k' v'] d IH]; cbn.
  - rewrite decide_True by reflexivity. reflexivity.
  - destruct (decide (k = k')) as [->|Hne]; cbn.
    + rewrite decide_True by reflexivity. reflexivity.
    + rewrite decide_False by assumption. exact IH.
Qed.

Lemma dict_get_set_ne k k0 v d :
  k0 <> k -> dict_get k0 (dict_set k v d) = dict_get k0 d.
Proof.
  intros Hne. induction d as [|[k' v'] d IH]; cbn.
  - rewrite decide_False by assumption. reflexivity.
  - destruct (decide (k = k')) as [->|Hk]; cbn.
    + rewrite !decide_False by assumption. reflexivity.
    + destruct (decide (k0 = k')); [reflexivity|exact IH].
Qed.

Lemma dict_get_None k d : dict_get k d = None <-> ~ In k (keys d).
Proof.
  unfold keys.
  induction d as [|[k' v'] d IH]; cbn; [tauto|].
  destruct (decide (k = k')) as [->|Hne].
  - split; [discriminate|]. intros H. exfalso. apply H. left. reflexivity.
  - rewrite IH. split; [intros H [E|E]; [congruence|auto] | auto].
Qed.

Lemma keys_dict_set k v d :
  keys (dict_set k v d)
  = match dict_get k d with
    | Some _ => keys d
    | None => keys d ++ [k]
    end.
Proof.
  unfold keys.
  induction d as [|[k' v'] d IH]; cbn; [reflexivity|].
  destruct (decide (k = k')) as [->|Hne]; cbn; [reflexivity|].
  rewrite IH. destruct (dict_get k d); reflexivity.
Qed.

Lemma dict_del_get_ne k k0 d :
  k0 <> k -> dict_get k0 (dict_del k d) = dict_get k0 d.
Proof.
  intros Hne. induction d as [|[k' v'] d IH]; cbn; [reflexivity|].
  destruct (decide (k = k')) as [->|Hk]; cbn.
  - rewrite decide_False by assumption. reflexivity.
  - destruct (decide (k0 = k')); [reflexivity|exact IH].
Qed.

Lemma keys_dict_del k d :
  NoDup (keys d) -> keys (dict_del k d) = List.filter (fun x => negb (bool_decide (x = k))) (keys d).
Proof.
  unfold keys.
  induction d as [|[k' v'] d IH]; cbn; [reflexivity|].
  intros Hnd. apply NoDup_cons in Hnd as [Hnin Hnd].
  destruct (decide (k = k')) as [->|Hk]; cbn.
  - rewrite bool_decide_eq_true_2 by reflexivity. cbn.
    symmetry. apply forallb_filter_id. apply forallb_forall. intros x Hx.
    apply negb_true_iff, bool_decide_eq_false_2. intros ->.
    apply Hnin, list_elem_of_In, Hx.
  - rewrite bool_decide_eq_false_2 by congruence. cbn. rewrite IH by assumption.
    reflexivity.
Qed.

(** X11: [find] after [add_record]: the record is found under its name, and
    every other name is found as before. *)
Theorem find_add_record record book :
  find (name_value (name record)) (add_record record book) = Some record
  /\ forall nm, nm <> name_value (name record) ->
                find nm (add_record record book) = find nm book.
Proof.
  unfold find, add_record. split.
  - apply dict_get_set_eq.
  - intros nm Hne. apply dict_get_set_ne, Hne.
Qed.

(** X12: [add_record] keeps the order of the names: a known name stays in its
    place with the new record (the old one is dropped), a new name goes to
    the end; no name ever occurs twice. *)
Theorem add_record_keys record book :
  keys (add_record record book)
  = match find (name_value (name record)) book with
    | Some _ => keys book
    | None => keys book ++ [name_value (name record)]
    end
  /\ (NoDup (keys book) -> NoDup (keys (add_record record book))).
Proof.
  unfold add_record, find. rewrite keys_dict_set.
  destruct (dict_get (name_value (name record)) book) eqn:E.
  - split; [reflexivity|auto].
  - split; [reflexivity|]. intros Hnd. apply NoDup_app. split; [exact Hnd|].
    split; [|apply NoDup_singleton].
    intros x Hx Hx'. apply list_elem_of_singleton in Hx'. subst x.
    apply dict_get_None in E. apply E, list_elem_of_In, Hx.
Qed.

Lemma NoDup_list_filter {A} (f : A -> bool) (l : list A) :
  NoDup l -> NoDup (List.filter f l).
Proof.
  induction 1 as [|x l Hx Hl IH]; cbn [List.filter]; [apply NoDup_nil_2|].
  destruct (f x); [|exact IH]. apply NoDup_cons_2; [|exact IH].
  intros H. apply Hx. apply list_elem_of_In in H. apply filter_In in H as [H _].
  apply list_elem_of_In, H.
Qed.

(** X13: [delete]: the name is gone, every other name is found as before, the
    other names keep their order and stay distinct; deleting a name that is not there leaves
    the book as it is. *)
Theorem delete_spec nm book :
  NoDup (keys book) ->
  find nm (delete nm book) = None
  /\ (forall k, k <> nm -> find k (delete nm book) = find k book)
  /\ keys (delete nm book)
     = List.filter (fun x => negb (bool_decide (x = nm))) (keys book)
  /\ NoDup (keys (delete nm book))
  /\ (find nm book = None -> delete nm book = book).
Proof.
  intros Hnd.
  assert (keys (delete nm book)
          = List.filter (fun x => negb (bool_decide (x = nm))) (keys book))
    as Hk.
  { unfold delete. destruct (dict_get nm book) as [r|] eqn:E.
    - apply keys_dict_del, Hnd.
    - symmetry. apply forallb_filter_id. apply forallb_forall. intros x Hx.
      apply negb_true_iff, bool_decide_eq_false_2. intros ->.
      apply dict_get_None in E. contradiction. }
  split; [|split; [|split; [exact Hk|split]]].
  - unfold find. apply dict_get_None. rewrite Hk, filter_In. intros [_ H].
    rewrite bool_decide_eq_true_2 in H by reflexivity. discriminate.
  - intros k Hne. unfold find, delete.
    destruct (dict_get nm book); [apply dict_del_get_ne, Hne|reflexivity].
  - rewrite Hk. apply NoDup_list_filter, Hnd.
  - unfold find, delete. intros ->. reflexivity.
Qed.

Lemma dict_del_set_fresh k v d :
  dict_get k d = None -> dict_del k (dict_set k v d) = d.
Proof.
  induction d as [|[k' v'] d IH]; cbn.
  - intros _. rewrite decide_True by reflexivity. reflexivity.
  - destruct (decide (k = k')) as [->|Hk]; [discriminate|].
    intros H. cbn. rewrite decide_False by assumption. f_equal. apply IH, H.
Qed.

(** X14: Adding a record under a new name and deleting that name gives back the
    book. *)
Theorem delete_add_record record book :
  find (name_value (name record)) book = None ->
  delete (name_value (name record)) (add_record record book) = book.
Proof.
  intros H. unfold delete, add_record, find in *.
  rewrite dict_get_set_eq. apply dict_del_set_fresh, H.
Qed.

(** ** Equality of fields *)

Lemma date_eqb_eq a b : date_eqb a b = true <-> a = b.
Proof.
  unfold date_eqb. rewrite !andb_true_iff, !Z.eqb_eq.
  destruct a, b; cbn. split; [intros [[-> ->] ->]; reflexivity|].
  intros [= -> -> ->]. auto.
Qed.

Lemma pyval_eqb_eq a b : pyval_eqb a b = true <-> a = b.
Proof.
  destruct a as [s|d|], b as [t|e|]; cbn;
    try (split; [discriminate|intros [=]]); try tauto.
  - rewrite bool_decide_eq_true. split; [intros ->; reflexivity|intros [=]; auto].
  - rewrite date_eqb_eq. split; [intros ->; reflexivity|intros [=]; auto].
Qed.

(** X15: [__eq__] on two fields never raises and is True exactly when both are of
    the same class and wrap equal values: a name and a phone with the same
    string are different. *)
Theorem Field_eq_fields f g :
  Field___eq__ f (OField g) = Ok (bool_decide (f = g)).
Proof.
  unfold Field___eq__. cbn [getattr_value rbind]. f_equal.
  destruct (pyval_eqb (field_value f) (field_value g)) eqn:E.
  - apply pyval_eqb_eq in E.
    destruct f as [[s]|[s]|[[d|]]], g as [[t]|[t]|[[e|]]]; cbn in *;
      try discriminate E; try injection E as ->;
      first [ rewrite bool_decide_eq_true_2 by reflexivity; reflexivity
            | rewrite bool_decide_eq_false_2 by discriminate; reflexivity ].
  - symmetry. apply bool_decide_eq_false_2. intros ->.
    rewrite pyval_eqb_refl in E. discriminate.
Qed.

(** ** The handlers *)

Lemma dict_set_same k v d : dict_get k d = Some v -> dict_set k v d = d.
Proof.
  induction d as [|[k' v'] d IH]; cbn; [discriminate|].
  destruct (decide (k = k')) as [->|Hne]; [intros [= ->]; reflexivity|].
  intros H. f_equal. apply IH, H.
Qed.

Lemma Phone_valid_truthy phone :
  is_ok (Phone___init__ phone) = true -> truthy phone = true.
Proof. destruct phone; [discriminate|reflexivity]. Qed.

(** X18: [handle_add] with a valid number: the contact exists afterwards and has
    the number; a known contact keeps its name, birthday and other numbers,
    and the other contacts are untouched. *)
Theorem handle_add_valid nm phone book :
  nm <> [] -> is_ok (Phone___init__ phone) = true ->
  exists book' r',
    handle_add [nm; phone] book
    = (book', Ok (match find nm book with
                  | Some _ => py "Contact updated."
                  | None => py "Contact added."
                  end))
    /\ find nm book' = Some r'
    /\ mkPhone phone ∈ phones r'
    /\ r' = (match find nm book with
             | Some r => mkRecord (name r) (birthday r)
                           ({[ mkPhone phone ]} ∪ phones r)
             | None => mkRecord (mkName nm) None ({[ mkPhone phone ]} ∪ ∅)
             end)
    /\ forall k, k <> nm -> find k book' = find k book.
Proof.
  intros Hnm Hok.
  destruct (Phone___init__ phone) as [p|] eqn:Hp; [|discriminate].
  pose proof (Phone_init_value _ _ Hp) as ->.
  unfold handle_add, input_error, handle_add_func.
  rewrite (Phone_valid_truthy phone) by (rewrite Hp; reflexivity).
  destruct (find nm book) as [r|] eqn:Ef.
  - unfold on_record. rewrite (add_phone_ok r phone _ Hp). cbn [rbind].
    eexists _, _. split; [reflexivity|]. unfold find.
    split; [apply dict_get_set_eq|].
    split; [cbn [phones]; apply elem_of_union_l, elem_of_singleton_2; reflexivity|].
    split; [reflexivity|]. intros k Hk. apply dict_get_set_ne, Hk.
  - unfold Record___init__, Name___init__.
    destruct nm as [|c nm]; [contradiction|]. cbn [rbind].
    unfold on_record. rewrite (add_phone_ok _ phone _ Hp). cbn [rbind].
    eexists _, _. split; [reflexivity|]. unfold find, add_record.
    cbn [name name_value birthday phones].
    split; [apply dict_get_set_eq|].
    split; [apply elem_of_union_l, elem_of_singleton_2; reflexivity|].
    split; [reflexivity|]. intros k Hk.
    rewrite !dict_get_set_ne by exact Hk. reflexivity.
Qed.

Lemma dict_set_fresh k v d :
  dict_get k d = None -> dict_set k v d = d ++ [(k, v)].
Proof.
  induction d as [|[k' v'] d IH]; cbn; [reflexivity|].
  destruct (decide (k = k')) as [->|Hne]; [discriminate|].
  intros H. f_equal. apply IH, H.
Qed.

(** X19: [handle_add] with a new name and a number that is rejected: the answer
    is the error message, and the contact has been added all the same,
    without a number. *)
Theorem handle_add_invalid_phone nm phone book :
  nm <> [] -> phone <> [] -> find nm book = None ->
  is_ok (Phone___init__ phone) = false ->
  handle_add [nm; phone] book
  = (book ++ [(nm, mkRecord (mkName nm) None ∅)],
     Ok (py "Invalid phone number")).
Proof.
  intros Hnm Hph Ef Hbad. apply Phone_init_error in Hbad.
  unfold handle_add, input_error, handle_add_func. rewrite Ef.
  unfold Record___init__, Name___init__.
  destruct nm as [|c nm]; [contradiction|]. cbn [rbind].
  destruct phone as [|c' phone]; [contradiction|]. cbn [truthy].
  unfold on_record, add_phone, mbind_, mlift. rewrite Hbad.
  cbn [rbind]. unfold add_record. cbn [name name_value].
  rewrite dict_set_same by apply dict_get_set_eq.
  rewrite dict_set_fresh by exact Ef. reflexivity.
Qed.

(** X20: [handle_change] never raises, and unless it answers "Contact updated."
    the book is as before. *)
Theorem handle_change_safe args book :
  exists book' msg,
    handle_change args book = (book', Ok msg)
    /\ (msg = py "Contact updated." \/ book' = book).
Proof.
  unfold handle_change, input_error, handle_change_func.
  destruct args as [|nm [|old [|new [|x args]]]];
    try (eexists _, _; split; [reflexivity|right; reflexivity]).
  destruct (find nm book) as [r|] eqn:Ef;
    [|eexists _, _; split; [reflexivity|right; reflexivity]].
  unfold on_record.
  destruct (edit_phone old new r) as [r' [[]|e]] eqn:Ee; cbn [rbind].
  - eexists _, _. split; [reflexivity|left; reflexivity].
  - apply edit_phone_raises in Ee as [-> [msg ->]].
    rewrite dict_set_same by exact Ef.
    eexists _, _. split; [reflexivity|right; reflexivity].
Qed.

(** X21: [handle_add_birthday] and then [handle_show_birthday] on a known
    contact: a string that parses is stored and shown as [strftime] prints
    its date; a string that does not parse leaves the book as it is. *)
Theorem handle_birthday_roundtrip l nm s book r :
  find nm book = Some r ->
  match strptime s with
  | Ok d =>
      let book' := fst (handle_add_birthday [nm; s] book) in
      snd (handle_add_birthday [nm; s] book) = Ok (py "Birthday added.")
      /\ handle_show_birthday l [nm] book'
         = (book', Ok (nm ++ py "'s birthday is " ++ strftime l d ++ py "."))
  | Raise _ =>
      handle_add_birthday [nm; s] book
      = (book, Ok (py "Invalid date format. Use DD.MM.YYYY"))
  end.
Proof.
  intros Ef. pose proof (add_birthday_cases r s) as Hs.
  unfold handle_add_birthday, handle_show_birthday, input_error,
    handle_add_birthday_func, handle_show_birthday_func.
  rewrite Ef. unfold on_record.
  destruct (strptime s) as [d|e]; rewrite Hs; cbn [rbind fst snd].
  - split; [reflexivity|]. unfold find. rewrite dict_get_set_eq.
    cbn [birthday Birthday___str__ birthday_value rbind]. reflexivity.
  - rewrite dict_set_same by exact Ef. reflexivity.
Qed.

Lemma upcoming_loop_total today days_ahead records acc :
  valid_date today = true -> year today <= 9997 ->
  birthdays_valid records ->
  upcoming_loop today days_ahead records acc
  = if existsb (feb29_stuck today) records
    then Raise ValueError
    else Ok (acc ++ flat_map (entry_of today days_ahead) records).
Proof.
  intros Ht Hy Hv. revert acc.
  induction Hv as [|record rest Hr _ IH]; intros acc;
    cbn [upcoming_loop existsb flat_map].
  - rewrite app_nil_r. reflexivity.
  - unfold feb29_stuck at 1, entry_of at 1.
    destruct (birthday record) as [b|]; [|cbn [orb]; apply IH].
    destruct (Hr b eq_refl) as (v & Ev & Hvv).
    pose proof (next_congritulation_date_cases today b v Ht Hy Ev Hvv) as Hd.
    destruct (is_29th_february b && is_leap_year (year today)
              && date_ltb (mkDate (year today) 2 29) today).
    + rewrite Hd. reflexivity.
    + destruct Hd as [d ->]. cbn [rbind orb].
      destruct (in_window today days_ahead d); rewrite IH;
        destruct (existsb (feb29_stuck today) rest); try reflexivity.
      rewrite <- app_assoc. reflexivity.
Qed.

(** X22: [handle_upcoming_birthdays] with valid birthdays and a current date up
    to the year 9997 never raises: it answers "Invalid input. Please enter
    the correct data." when some contact is stuck in the rollover of a
    29 February, and lists the contacts in the window otherwise. *)
Theorem handle_upcoming_birthdays_total today book :
  valid_date today = true -> year today <= 9997 ->
  birthdays_valid (values book) ->
  handle_upcoming_birthdays today [] book
  = (book,
     Ok (if existsb (feb29_stuck today) (values book)
         then py "Invalid input. Please enter the correct data."
         else upcoming_text (flat_map (entry_of today 7) (values book)))).
Proof.
  intros Ht Hy Hv.
  unfold handle_upcoming_birthdays, input_error,
    handle_upcoming_birthdays_func, get_upcoming_birthdays.
  rewrite (upcoming_loop_total today 7 (values book) [] Ht Hy Hv).
  destruct (existsb (feb29_stuck today) (values book)); [reflexivity|].
  cbn [rbind app]. unfold upcoming_text.
  destruct (flat_map (entry_of today 7) (values book)); reflexivity.
Qed.

(** ** Parsing a command line *)

Lemma split_from_words cur s :
  forallb (fun c => negb (char_isspace c)) cur = true ->
  forallb is_word (split_from cur s) = true
  /\ concat (split_from cur s)
     = cur ++ List.filter (fun c => negb (char_isspace c)) s.
Proof.
  revert cur. induction s as [|c s IH]; intros cur Hcur; cbn [split_from].
  - destruct cur as [|x cur]; cbn [forallb concat List.filter app].
    + split; reflexivity.
    + rewrite !app_nil_r. split; [|reflexivity].
      unfold is_word. cbn [truthy andb]. rewrite Hcur. reflexivity.
  - cbn [List.filter]. destruct (char_isspace c) eqn:Ec; cbn [negb].
    + destruct (IH [] eq_refl) as [IH1 IH2].
      destruct cur as [|x cur]; [split; [exact IH1| exact IH2]|].
      cbn [forallb concat]. rewrite IH1, IH2. split; [|reflexivity].
      unfold is_word. cbn [truthy andb]. rewrite Hcur. reflexivity.
    + assert (forallb (fun c => negb (char_isspace c)) (cur ++ [c]) = true) as H.
      { rewrite forallb_app, Hcur. cbn [forallb andb]. rewrite Ec. reflexivity. }
      destruct (IH (cur ++ [c]) H) as [IH1 IH2].
      split; [exact IH1|]. rewrite IH2, <- app_assoc. reflexivity.
Qed.

Lemma split_from_nil cur s :
  split_from cur s = [] <-> cur = [] /\ forallb char_isspace s = true.
Proof.
  revert cur. induction s as [|c s IH]; intros cur; cbn [split_from forallb].
  - destruct cur; split; try tauto; try discriminate. intros [H _]. discriminate.
  - destruct (char_isspace c) eqn:Ec; cbn [andb].
    + destruct cur as [|x cur]; [apply IH|].
      split; [discriminate|intros [H _]; discriminate].
    + rewrite IH. split; [intros [H _]|intros [_ H]; discriminate].
      destruct cur; discriminate.
Qed.

(** X23: [parse_input] gives no command exactly on a line of whitespace only
    (the empty line included), and then no arguments; the command and the
    arguments are never empty, hold no whitespace, and put together they
    are the characters of the line that are not whitespace, in order. *)
Theorem parse_input_words user_input :
  (fst (parse_input user_input) = None
   <-> forallb char_isspace user_input = true)
  /\ (fst (parse_input user_input) = None -> snd (parse_input user_input) = [])
  /\ forallb is_word (words_of (parse_input user_input)) = true
  /\ concat (words_of (parse_input user_input))
     = List.filter (fun c => negb (char_isspace c)) user_input.
Proof.
  pose proof (split_from_words [] user_input eq_refl) as [H1 H2].
  pose proof (split_from_nil [] user_input) as H3.
  unfold parse_input, words_of, split in *.
  destruct (split_from [] user_input) as [|cmd args]; cbn [fst snd].
  - split; [|auto]. split; [intros _; apply H3; reflexivity|reflexivity].
  - split; [|split; [discriminate|split; [exact H1|exact H2]]].
    split; [discriminate|]. intros H. assert (cmd :: args = []) as E; [|discriminate].
    apply H3. auto.
Qed.

Lemma split_from_word cur w s :
  forallb (fun c => negb (char_isspace c)) w = true ->
  split_from cur (w ++ s) = split_from (cur ++ w) s.
Proof.
  revert cur. induction w as [|c w IH]; intros cur Hw; cbn [app].
  - rewrite app_nil_r. reflexivity.
  - cbn [forallb] in Hw. apply andb_true_iff in Hw as [Hc Hw].
    apply negb_true_iff in Hc. cbn [split_from]. rewrite Hc.
    rewrite IH by exact Hw. rewrite <- app_assoc. reflexivity.
Qed.

Lemma split_join ws :
  forallb is_word ws = true -> split (join [32] ws) = ws.
Proof.
  unfold split. induction ws as [|w ws IH]; [reflexivity|].
  cbn [forallb]. intros H. apply andb_true_iff in H as [Hw Hws].
  unfold is_word in Hw. apply andb_true_iff in Hw as [Hne Hw].
  destruct ws as [|w' ws].
  - cbn [join]. rewrite <- (app_nil_r w) at 1.
    rewrite split_from_word by exact Hw. cbn [app split_from].
    destruct w; [discriminate|reflexivity].
  - change (join [32] (w :: w' :: ws)) with (w ++ [32] ++ join [32] (w' :: ws)).
    rewrite split_from_word by exact Hw. cbn [app split_from].
    change (char_isspace 32) with true. cbv iota.
    destruct w as [|c w]; [discriminate|]. f_equal. apply IH, Hws.
Qed.

(** X24: A command and arguments that are words, joined by single spaces, are
    parsed back into that command and those arguments. *)
Theorem parse_input_join cmd args :
  forallb is_word (cmd :: args) = true ->
  parse_input (join [32] (cmd :: args)) = (Some cmd, args).
Proof.
  intros H. unfold parse_input. rewrite split_join by exact H. reflexivity.
Qed.

(** ** The list of upcoming birthdays *)

Lemma upcoming_loop_sound today days_ahead all records acc l :
  (forall r, In r records -> In r all) ->
  Forall (entry_sound today days_ahead all) acc ->
  upcoming_loop today days_ahead records acc = Ok l ->
  Forall (entry_sound today days_ahead all) l
  /\ (length l <= length acc + length records)%nat.
Proof.
  revert acc. induction records as [|r rest IH]; intros acc Hsub Hacc;
    cbn [upcoming_loop].
  - intros [= <-]. split; [exact Hacc|cbn; lia].
  - assert (forall r', In r' rest -> In r' all) as Hsub'
      by (intros r' H'; apply Hsub; right; exact H').
    destruct (birthday r) as [b|] eqn:Eb.
    + destruct (next_congritulation_date today b) as [[d|]|e] eqn:En;
        cbn [rbind]; try discriminate.
      destruct (in_window today days_ahead d) eqn:Ew.
      * intros H. apply IH in H as [H1 H2]; [|exact Hsub'|].
        -- split; [exact H1|]. rewrite length_app in H2. cbn in *. lia.
        -- apply Forall_app. split; [exact Hacc|].
           apply Forall_cons. split; [|apply Forall_nil; exact I].
           unfold entry_sound. cbn [congratulation_day u_name].
           split; [exact Ew|]. split.
           ++ apply next_congritulation_date_shifted in En as [c Hc].
              apply weekend_shift_weekday in Hc. exact Hc.
           ++ exists r, b. repeat split; auto. apply Hsub. left. reflexivity.
      * intros H. apply IH in H as [H1 H2]; [|exact Hsub'|exact Hacc].
        split; [exact H1|]. cbn. lia.
    + intros H. apply IH in H as [H1 H2]; [|exact Hsub'|exact Hacc].
      split; [exact H1|]. cbn. lia.
Qed.

(** X16: When every record that has a birthday is scheduled, the list holds, in
    the order of the book, one entry for each record whose celebration lies
    in the window, and nothing else. *)
Theorem get_upcoming_birthdays_in_order today days_ahead book :
  all_scheduled today (values book) ->
  get_upcoming_birthdays today days_ahead book
  = Ok (flat_map (entry_of today days_ahead) (values book)).
Proof. intros H. apply (upcoming_loop_scheduled _ _ _ [] H). Qed.

(** X17: Whatever [get_upcoming_birthdays] returns: every entry is the schedule
    of a record of the book that has a birthday, lies in the window and is
    not on a weekend; there are no more entries than records, and none when
    [days_ahead] is not positive. *)
Theorem get_upcoming_birthdays_sound today days_ahead book l :
  get_upcoming_birthdays today days_ahead book = Ok l ->
  Forall (entry_sound today days_ahead (values book)) l
  /\ (length l <= length book)%nat
  /\ (days_ahead <= 0 -> l = []).
Proof.
  intros H. unfold get_upcoming_birthdays in H.
  apply (upcoming_loop_sound today days_ahead (values book)) in H
    as [H1 H2]; [|auto|apply Forall_nil; exact I].
  split; [exact H1|]. split.
  - unfold values in H2. rewrite length_map in H2. cbn in H2. lia.
  - intros Hn. destruct l as [|u l]; [reflexivity|].
    apply Forall_cons in H1 as [[Hw _] _].
    apply in_window_iff in Hw. lia.
Qed.

(** X4: A birthday that the constructor built holds the date that [strptime]
    read, a real day of the calendar in the years 1 to 9999; a 29 February
    is of a leap year. *)
Theorem Birthday_init_valid_date s b :
  Birthday___init__ s = Ok b ->
  exists d, birthday_value b = Some d /\ strptime s = Ok d
            /\ valid_date d = true /\ 1 <= year d <= 9999
            /\ (is_29th_february b = true -> is_leap_year (year d) = true).
Proof.
  intros H. apply Birthday_init_ok in H as (d & -> & Hs & Hv).
  exists d. split; [reflexivity|]. split; [exact Hs|]. split; [exact Hv|].
  pose proof (valid_date_bounds d Hv) as (Hy & _ & _). split; [exact Hy|].
  cbn. intros H29. apply andb_true_iff in H29 as [Hm Hd].
  apply Z.eqb_eq in Hm, Hd. change is_leap_year with _is_leap.
  destruct (_is_leap (year d)) eqn:El; [reflexivity|].
  unfold valid_date in Hv. destruct d as [y m dd]. cbn in *. subst.
  rewrite (feb29_invalid y El) in Hv. discriminate.
Qed.

(** ** Witnesses *)

Lemma next_congritulation_date_window_witness :
  0 <= sub_days (mkDate 2025 3 17) (mkDate 2024 3 20) <= 367.
Proof.
  apply (next_congritulation_date_window (mkDate 2024 3 20)
           (mkBirthday (Some (mkDate 1990 3 15)))).
  - reflexivity.
  - vm_compute. reflexivity.
Defined.

Lemma next_congritulation_date_defined_witness :
  exists d, next_congritulation_date (mkDate 2024 3 20)
              (mkBirthday (Some (mkDate 1990 3 15))) = Ok (Some d).
Proof.
  apply (next_congritulation_date_defined (mkDate 2024 3 20)
           (mkBirthday (Some (mkDate 1990 3 15))) (mkDate 1990 3 15));
    [reflexivity | simpl; lia | reflexivity | reflexivity].
Defined.

Lemma next_congritulation_date_day_witness :
  (month (mkDate 2025 3 17) = 3 /\ day (mkDate 2025 3 17) = 15
   /\ (year (mkDate 2025 3 17) = 2024 \/ year (mkDate 2025 3 17) = 2024 + 1))
  \/ weekday (mkDate 2025 3 17) = 0.
Proof.
  apply (next_congritulation_date_day (mkDate 2024 3 20)
           (mkBirthday (Some (mkDate 1990 3 15))) (mkDate 1990 3 15));
    [reflexivity | reflexivity | vm_compute; reflexivity].
Defined.

Lemma Birthday_init_valid_date_witness :
  exists d, birthday_value (mkBirthday (Some (mkDate 2024 2 29))) = Some d
            /\ strptime (py "29.02.2024") = Ok d
            /\ valid_date d = true /\ 1 <= year d <= 9999
            /\ (is_29th_february (mkBirthday (Some (mkDate 2024 2 29))) = true
                -> is_leap_year (year d) = true).
Proof.
  apply (Birthday_init_valid_date (py "29.02.2024")). vm_compute. reflexivity.
Defined.

Lemma get_upcoming_birthdays_sound_witness :
  Forall (entry_sound (mkDate 2024 3 11) 7
            (values (add_record seven (add_record zero []))))
    [mkUpcoming (mkName (py "Zero")) (mkDate 2024 3 11)]
  /\ (length [mkUpcoming (mkName (py "Zero")) (mkDate 2024 3 11)]
      <= length (add_record seven (add_record zero [])))%nat
  /\ (7 <= 0 -> [mkUpcoming (mkName (py "Zero")) (mkDate 2024 3 11)] = []).
Proof.
  apply (get_upcoming_birthdays_sound (mkDate 2024 3 11) 7
           (add_record seven (add_record zero []))).
  reflexivity.
Defined.

Lemma get_upcoming_birthdays_in_order_witness :
  get_upcoming_birthdays (mkDate 2024 3 11) 7
    (add_record seven (add_record zero []))
  = Ok (flat_map (entry_of (mkDate 2024 3 11) 7)
          (values (add_record seven (add_record zero [])))).
Proof.
  apply (get_upcoming_birthdays_in_order (mkDate 2024 3 11) 7
           (add_record seven (add_record zero []))).
  repeat (apply List.Forall_cons || apply List.Forall_nil);
    intros b Hb; injection Hb as <-; eexists; vm_compute; reflexivity.
Defined.

Lemma add_remove_phone_witness :
  let r1 := fst (add_phone (py "0987654321") bob) in
  snd (add_phone (py "0987654321") bob) = Ok tt
  /\ mkPhone (py "0987654321") ∈ phones r1
  /\ remove_phone (py "0987654321") r1 = (bob, Ok tt).
Proof.
  apply (add_remove_phone bob (py "0987654321")).
  - reflexivity.
  - unfold bob. cbn [phones]. intros H. apply elem_of_singleton_1 in H.
    discriminate H.
Defined.

Lemma edit_phone_replaces_witness :
  exists r', edit_phone (py "1234567890") (py "0987654321") bob = (r', Ok tt)
    /\ name r' = name bob /\ birthday r' = birthday bob
    /\ forall q, q ∈ phones r'
                 <-> q = mkPhone (py "0987654321")
                     \/ (q ∈ phones bob /\ q <> mkPhone (py "1234567890")).
Proof.
  apply (edit_phone_replaces bob (py "1234567890") (py "0987654321")).
  - reflexivity.
  - reflexivity.
  - unfold bob. cbn [phones]. apply elem_of_singleton_2. reflexivity.
  - discriminate.
Defined.

Lemma phones_valid_preserved_witness :
  phones_valid (fst (add_phone (py "0987654321") bob))
  /\ phones_valid (fst (remove_phone (py "0987654321") bob))
  /\ phones_valid (fst (edit_phone (py "0987654321") (py "5555555555") bob))
  /\ phones_valid (fst (add_birthday (py "0987654321") bob)).
Proof.
  apply (phones_valid_preserved bob (py "0987654321") (py "5555555555")).
  intros p. unfold bob. cbn [phones]. intros H.
  apply elem_of_singleton_1 in H. subst p. reflexivity.
Defined.

Lemma find_phone_any_order_witness :
  find_phone_loop (py "1234567890") [mkPhone (py "1234567890")]
  = (if decide (mkPhone (py "1234567890") ∈ phones bob)
     then Some (mkPhone (py "1234567890")) else None)
  /\ (phones_valid bob -> is_ok (Phone___init__ (py "1234567890")) = false ->
      find_phone_loop (py "1234567890") [mkPhone (py "1234567890")] = None).
Proof.
  apply (find_phone_any_order bob (py "1234567890")
           [mkPhone (py "1234567890")]).
  intros p. unfold bob. cbn [phones]. rewrite elem_of_singleton. simpl.
  split; [intros [<-|[]]; reflexivity | intros ->; left; reflexivity].
Defined.

Lemma delete_spec_witness :
  find (py "Zero") (delete (py "Zero") (add_record seven (add_record zero [])))
  = None
  /\ (forall k, k <> py "Zero" ->
        find k (delete (py "Zero") (add_record seven (add_record zero [])))
        = find k (add_record seven (add_record zero [])))
  /\ keys (delete (py "Zero") (add_record seven (add_record zero [])))
     = List.filter (fun x => negb (bool_decide (x = py "Zero")))
         (keys (add_record seven (add_record zero [])))
  /\ NoDup (keys (delete (py "Zero") (add_record seven (add_record zero []))))
  /\ (find (py "Zero") (add_record seven (add_record zero [])) = None ->
      delete (py "Zero") (add_record seven (add_record zero []))
      = add_record seven (add_record zero [])).
Proof.
  apply (delete_spec (py "Zero") (add_record seven (add_record zero []))).
  apply (bool_decide_unpack _). vm_compute. exact I.
Defined.

Lemma delete_add_record_witness :
  delete (name_value (name seven)) (add_record seven (add_record zero []))
  = add_record zero [].
Proof.
  apply (delete_add_record seven (add_record zero [])). reflexivity.
Defined.

Lemma handle_add_valid_witness :
  exists book' r',
    handle_add [py "Bob"; py "0987654321"] [(py "Bob", bob)]
    = (book', Ok (match find (py "Bob") [(py "Bob", bob)] with
                  | Some _ => py "Contact updated."
                  | None => py "Contact added."
                  end))
    /\ find (py "Bob") book' = Some r'
    /\ mkPhone (py "0987654321") ∈ phones r'
    /\ r' = (match find (py "Bob") [(py "Bob", bob)] with
             | Some r => mkRecord (name r) (birthday r)
                           ({[ mkPhone (py "0987654321") ]} ∪ phones r)
             | None => mkRecord (mkName (py "Bob")) None
                         ({[ mkPhone (py "0987654321") ]} ∪ ∅)
             end)
    /\ forall k, k <> py "Bob" ->
                 find k book' = find k [(py "Bob", bob)].
Proof.
  apply (handle_add_valid (py "Bob") (py "0987654321") [(py "Bob", bob)]).
  - discriminate.
  - reflexivity.
Defined.

Lemma handle_add_invalid_phone_witness :
  handle_add [py "Eve"; py "12345"] [(py "Bob", bob)]
  = ([(py "Bob", bob)] ++ [(py "Eve", mkRecord (mkName (py "Eve")) None ∅)],
     Ok (py "Invalid phone number")).
Proof.
  apply (handle_add_invalid_phone (py "Eve") (py "12345") [(py "Bob", bob)]).
  - discriminate.
  - discriminate.
  - reflexivity.
  - reflexivity.
Defined.

Lemma handle_birthday_roundtrip_witness :
  let book' :=
    fst (handle_add_birthday [py "Bob"; py "29.02.2024"] [(py "Bob", bob)]) in
  snd (handle_add_birthday [py "Bob"; py "29.02.2024"] [(py "Bob", bob)])
  = Ok (py "Birthday added.")
  /\ handle_show_birthday GlibcYear [py "Bob"] book'
     = (book', Ok (py "Bob" ++ py "'s birthday is "
                   ++ strftime GlibcYear (mkDate 2024 2 29) ++ py ".")).
Proof.
  exact (handle_birthday_roundtrip GlibcYear (py "Bob") (py "29.02.2024")
           [(py "Bob", bob)] bob eq_refl).
Defined.

Lemma handle_upcoming_birthdays_total_witness :
  handle_upcoming_birthdays (mkDate 2024 3 1) [] (add_record ann [])
  = (add_record ann [],
     Ok (if existsb (feb29_stuck (mkDate 2024 3 1)) (values (add_record ann []))
         then py "Invalid input. Please enter the correct data."
         else upcoming_text
                (flat_map (entry_of (mkDate 2024 3 1) 7)
                   (values (add_record ann []))))).
Proof.
  apply (handle_upcoming_birthdays_total (mkDate 2024 3 1) (add_record ann [])).
  - reflexivity.
  - simpl. lia.
  - repeat (apply List.Forall_cons || apply List.Forall_nil).
    intros b Hb. injection Hb as <-. eexists. split; reflexivity.
Defined.

Lemma parse_input_join_witness :
  parse_input (join [32] [py "add"; py "Bob"; py "1234567890"])
  = (Some (py "add"), [py "Bob"; py "1234567890"]).
Proof.
  apply (parse_input_join (py "add") [py "Bob"; py "1234567890"]).
  reflexivity.
Defined.
